(** * File-based testing framework: parser, comparator and runner

    A shallow embedding of [test_framework.py] (classes [TestCase],
    [TestResult], [TestParser] and [TestRunner]) together with the
    properties its specification states about them.

    Python strings are modelled by [string]; a character stands for a
    code point below 256.  The standard library calls the program makes
    ([subprocess.run], [re.search], [json.loads]) are oracles collected
    in a record [World]; everything else is computed. *)

From Stdlib Require Import Bool Arith ZArith List Ascii String Lia.
From Stdlib Require Import Permutation DecimalString.
Import ListNotations.

Open Scope list_scope.
Open Scope string_scope.

(** ** Python string primitives *)

Module PyStr.

(** The double quote and the line feed, by code point. *)
Definition dquote : ascii := "034"%char.
Definition LF : ascii := "010"%char.
Definition quote_s : string := String dquote "".
Definition newline : string := String LF "".

(** [str.isspace] on one character, for code points below 256:
    TAB..CR, FS..US, SPACE, NEL and NBSP. *)
Definition isspace (c : ascii) : bool :=
  let n := nat_of_ascii c in
  (((9 <=? n) && (n <=? 13)) || ((28 <=? n) && (n <=? 32))
   || (n =? 133) || (n =? 160))%nat.

(** [s.lstrip()], [s.rstrip()] and [s.strip()] without argument. *)
Fixpoint lstrip (s : string) : string :=
  match s with
  | "" => ""
  | String c s' => if isspace c then lstrip s' else s
  end.

Fixpoint rstrip (s : string) : string :=
  match s with
  | "" => ""
  | String c s' =>
      match rstrip s' with
      | "" => if isspace c then "" else String c ""
      | r => String c r
      end
  end.

Definition strip (s : string) : string := rstrip (lstrip s).

(** [s.startswith(p)]. *)
Definition startswith (p s : string) : bool := String.prefix p s.

(** The slice [s[n:]]. *)
Fixpoint drop (n : nat) (s : string) : string :=
  match n, s with
  | O, _ => s
  | S _, "" => ""
  | S k, String _ s' => drop k s'
  end.

(** [sub in s]: some suffix of [s] starts with [sub]. *)
Fixpoint contains (sub s : string) : bool :=
  String.prefix sub s
  || match s with
     | "" => false
     | String _ s' => contains sub s'
     end.

(** [s.split(sep)] for a non-empty separator (the program only splits
    on the literals ['\n'], [','] and ['### TEST:']).  The scan goes
    left to right; [skip] counts the characters of a matched separator
    still to be passed over, so occurrences do not overlap.  The result
    is the piece under construction and the pieces after it. *)
Fixpoint split_go (sep : string) (skip : nat) (s : string)
  : string * list string :=
  match s with
  | "" => ("", [])
  | String c s' =>
      match skip with
      | S k => split_go sep k s'
      | O =>
          if String.prefix sep s
          then ("", let (p, ps) := split_go sep (String.length sep - 1) s'
                    in p :: ps)
          else let (p, ps) := split_go sep 0 s' in (String c p, ps)
      end
  end.

Definition split (sep s : string) : list string :=
  let (p, ps) := split_go sep 0 s in p :: ps.

(** [sep.join(parts)]. *)
Definition join (sep : string) (parts : list string) : string :=
  String.concat sep parts.

(** [s.replace(old, new)] for a non-empty [old] (the program replaces
    the double quote and the literal ['{input}']): every occurrence,
    leftmost first, without overlap. *)
Fixpoint replace_go (old new : string) (skip : nat) (s : string) : string :=
  match s with
  | "" => ""
  | String c s' =>
      match skip with
      | S k => replace_go old new k s'
      | O =>
          if String.prefix old s
          then new ++ replace_go old new (String.length old - 1) s'
          else String c (replace_go old new 0 s')
      end
  end.

Definition replace (old new s : string) : string := replace_go old new 0 s.

(** [s.lower()] for code points below 256: A-Z and the Latin-1
    capitals (all of 192..222 but the multiplication sign). *)
Definition lower_char (c : ascii) : ascii :=
  let n := nat_of_ascii c in
  if (((65 <=? n) && (n <=? 90))
      || ((192 <=? n) && (n <=? 222) && negb (n =? 215)))%nat
  then ascii_of_nat (n + 32)
  else c.

Fixpoint lower (s : string) : string :=
  match s with
  | "" => ""
  | String c s' => String (lower_char c) (lower s')
  end.

(** Truth value of a string: non-empty. *)
Definition truthy (s : string) : bool :=
  match s with "" => false | _ => true end.

(** [str(n)] for a non-negative integer. *)
Definition str_of_nat (n : nat) : string :=
  NilZero.string_of_uint (Nat.to_uint n).

End PyStr.

Import PyStr.

(** ** Data model *)

(** [@dataclass TestCase]. *)
Record TestCase := mkTestCase {
  name : string;
  description : string;
  input_data : string;
  expected_output : string;
  test_type : string;
  file_path : string;
  line_number : Z;
  tags : list string
}.

(** ** TestParser *)

Module TestParser.

(** The values [current_block] takes besides [None]: the strings
    ['description'], ['input'] and ['expected']. *)
Inductive Block := description_block | input_block | expected_block.

(** The local variables of [_parse_test_section] that the loop over
    the lines reads and writes. *)
Record Frame := mkFrame {
  v_description : string;
  v_input_data : string;
  v_expected_output : string;
  v_test_type : string;
  v_tags : list string;
  current_block : option Block;
  block_content : list string
}.

Definition set_description (f : Frame) (v : string) : Frame :=
  mkFrame v (v_input_data f) (v_expected_output f) (v_test_type f)
          (v_tags f) (current_block f) (block_content f).
Definition set_input_data (f : Frame) (v : string) : Frame :=
  mkFrame (v_description f) v (v_expected_output f) (v_test_type f)
          (v_tags f) (current_block f) (block_content f).
Definition set_expected_output (f : Frame) (v : string) : Frame :=
  mkFrame (v_description f) (v_input_data f) v (v_test_type f)
          (v_tags f) (current_block f) (block_content f).
Definition set_test_type (f : Frame) (v : string) : Frame :=
  mkFrame (v_description f) (v_input_data f) (v_expected_output f) v
          (v_tags f) (current_block f) (block_content f).
Definition set_tags (f : Frame) (v : list string) : Frame :=
  mkFrame (v_description f) (v_input_data f) (v_expected_output f)
          (v_test_type f) v (current_block f) (block_content f).
Definition set_block (f : Frame) (b : option Block) (c : list string)
  : Frame :=
  mkFrame (v_description f) (v_input_data f) (v_expected_output f)
          (v_test_type f) (v_tags f) b c.

(** The assignments before the loop. *)
Definition initial : Frame := mkFrame "" "" "" "exact" [] None [].

(** One iteration of [for line in lines[1:]]. *)
Definition step (f : Frame) (line : string) : Frame :=
  let stripped := strip line in
  if startswith "DESCRIPTION:" stripped then
    let f :=
      match current_block f with
      | Some description_block =>
          set_description f (strip (join newline (block_content f)))
      | Some input_block =>
          set_input_data f (strip (join newline (block_content f)))
      | Some expected_block =>
          set_expected_output f (strip (join newline (block_content f)))
      | None => f
      end in
    let desc_value := strip (drop 12 stripped) in
    set_block f (Some description_block)
              (if truthy desc_value then [desc_value] else [])
  else if startswith "INPUT:" stripped then
    let f :=
      match current_block f with
      | Some description_block =>
          set_description f (strip (join newline (block_content f)))
      | Some input_block =>
          set_input_data f (strip (join newline (block_content f)))
      | Some expected_block =>
          set_expected_output f (strip (join newline (block_content f)))
      | None => f
      end in
    let input_value := strip (drop 6 stripped) in
    set_block f (Some input_block)
              (if truthy input_value then [input_value] else [])
  else if startswith "EXPECTED:" stripped then
    let f :=
      match current_block f with
      | Some description_block =>
          set_description f (strip (join newline (block_content f)))
      | Some input_block =>
          set_input_data f (strip (join newline (block_content f)))
      | Some expected_block =>
          set_expected_output f (strip (join newline (block_content f)))
      | None => f
      end in
    let expected_value := strip (drop 9 stripped) in
    set_block f (Some expected_block)
              (if truthy expected_value then [expected_value] else [])
  else if startswith "TYPE:" stripped then
    set_test_type f (lower (strip (drop 5 stripped)))
  else if startswith "TAGS:" stripped then
    set_tags f (map strip (split "," (drop 5 stripped)))
  else if truthy stripped then
    match current_block f with
    | Some _ =>
        set_block f (current_block f) (block_content f ++ [stripped])%list
    | None => f
    end
  else f.

(** [_parse_test_section(section, file_path)]; [None] is Python's
    [None]. *)
Definition _parse_test_section (section file_path : string)
  : option TestCase :=
  let lines := split newline (strip section) in
  match lines with
  | [] => None
  | line0 :: rest =>
      let name := strip line0 in
      let f := fold_left step rest initial in
      let f :=
        match current_block f with
        | Some description_block =>
            set_description f (strip (join newline (block_content f)))
        | Some input_block =>
            set_input_data f (strip (join newline (block_content f)))
        | Some expected_block =>
            set_expected_output f (strip (join newline (block_content f)))
        | None => f
        end in
      Some (mkTestCase name (v_description f) (v_input_data f)
                       (v_expected_output f) (v_test_type f) file_path 0
                       (v_tags f))
  end.

(** The loop of [parse_file] over [sections[1:]]; a [TestCase] object
    is always true, [None] is false. *)
Fixpoint parse_sections (sections : list string) (file_path : string)
  : list TestCase :=
  match sections with
  | [] => []
  | section :: more =>
      match _parse_test_section section file_path with
      | Some test_case => test_case :: parse_sections more file_path
      | None => parse_sections more file_path
      end
  end.

(** [parse_file(file_path)], given the text [content] that reading the
    file returned. *)
Definition parse_file (content file_path : string) : list TestCase :=
  let sections := split "### TEST:" content in
  parse_sections (tl sections) file_path.

End TestParser.

Import TestParser.

(** [@dataclass TestResult].  The field [execution_time], a difference
    of two readings of the wall clock, is left out. *)
Record TestResult := mkTestResult {
  test_case : TestCase;
  passed : bool;
  actual_output : string;
  error_message : string
}.

(** ** Exceptions *)

(** The exceptions the library calls of [TestRunner] raise; all of them
    derive from [Exception].
    - [TimeoutExpired]: [subprocess.run] ran out of its [timeout];
    - [OSError]: the shell could not be started;
    - [ValueError_null]: the command line holds a NUL character;
    - [UnicodeDecodeError]: the captured output is not text;
    - [re_error_at], [re_error_lookbehind]: [re] refused the pattern,
      in its parser (with the position) or in its compiler;
    - [JSONDecodeError]: the document is not JSON;
    - [ValueError_int_digits]: an integer literal has more digits than
      [int] converts (4300 by default). *)
Inductive PyException :=
| TimeoutExpired (cmd : string) (timeout : nat)
| OSError (errno : nat) (strerror : string) (filename : option string)
| ValueError_null
| UnicodeDecodeError (encoding detail : string)
| re_error_at (msg : string) (pos : nat)
| re_error_lookbehind
| JSONDecodeError (msg : string) (lineno colno pos : nat)
| ValueError_int_digits (digits : nat).

(** [str(e)], after the [__str__] or the message format of each class. *)
Definition exn_str (e : PyException) : string :=
  match e with
  | TimeoutExpired cmd timeout =>
      "Command '" ++ cmd ++ "' timed out after " ++ str_of_nat timeout
      ++ " seconds"
  | OSError errno strerror filename =>
      "[Errno " ++ str_of_nat errno ++ "] " ++ strerror
      ++ match filename with
         | Some fn => ": '" ++ fn ++ "'"
         | None => ""
         end
  | ValueError_null => "embedded null byte"
  | UnicodeDecodeError encoding detail =>
      "'" ++ encoding ++ "' codec can't decode " ++ detail
  | re_error_at msg pos => msg ++ " at position " ++ str_of_nat pos
  | re_error_lookbehind => "look-behind requires fixed-width pattern"
  | JSONDecodeError msg lineno colno pos =>
      msg ++ ": line " ++ str_of_nat lineno ++ " column " ++ str_of_nat colno
      ++ " (char " ++ str_of_nat pos ++ ")"
  | ValueError_int_digits digits =>
      "Exceeds the limit (4300 digits) for integer string conversion: "
      ++ "value has " ++ str_of_nat digits
      ++ " digits; use sys.set_int_max_str_digits() to increase the limit"
  end.

(** [isinstance(e, json.JSONDecodeError)] and [isinstance(e, Exception)]. *)
Definition is_JSONDecodeError (e : PyException) : bool :=
  match e with
  | JSONDecodeError _ _ _ _ => true
  | _ => false
  end.

Definition is_Exception (e : PyException) : bool :=
  match e with
  | TimeoutExpired _ _ => true
  | OSError _ _ _ => true
  | ValueError_null => true
  | UnicodeDecodeError _ _ => true
  | re_error_at _ _ => true
  | re_error_lookbehind => true
  | JSONDecodeError _ _ _ _ => true
  | ValueError_int_digits _ => true
  end.

(** A computation that returns a value or raises. *)
Inductive Res (A : Type) : Type :=
| Ok (a : A)
| Raise (e : PyException).
Arguments Ok {A} a.
Arguments Raise {A} e.

Definition bind {A B : Type} (m : Res A) (k : A -> Res B) : Res B :=
  match m with
  | Ok a => k a
  | Raise e => Raise e
  end.

Notation "x <- m ;; k" := (bind m (fun x => k))
  (at level 61, m at next level, right associativity).

(** [try: body  except <class> as e: handler], the class given by the
    test [catches]; an exception of another class goes on to the
    caller. *)
Definition try_except {A : Type} (body : Res A)
           (catches : PyException -> bool) (handler : PyException -> Res A)
  : Res A :=
  match body with
  | Ok a => Ok a
  | Raise e => if catches e then handler e else Raise e
  end.

(** ** Values built by [json.loads] and their comparison *)

Module PyJson.

Section Values.

(** Python's [float], kept abstract. *)
Variable F : Type.

(** [None], [bool], [int], [float], [str], [list] and [dict]; a
    [dict] lists its items in insertion order, each key once. *)
#[local] Set Warnings "-register-all".
Inductive pyval :=
| PNone
| PBool (b : bool)
| PInt (z : Z)
| PFloat (x : F)
| PStr (s : string)
| PList (items : list pyval)
| PDict (items : list (string * pyval)).

(** [d.get(k)]. *)
Fixpoint dict_get {A : Type} (k : string) (d : list (string * A))
  : option A :=
  match d with
  | [] => None
  | (k', v) :: d' => if String.eqb k k' then Some v else dict_get k d'
  end.

(** [d[k] = v]: a key already present keeps its place. *)
Fixpoint dict_set {A : Type} (k : string) (v : A)
         (d : list (string * A)) : list (string * A) :=
  match d with
  | [] => [(k, v)]
  | (k', v') :: d' =>
      if String.eqb k k' then (k, v) :: d' else (k', v') :: dict_set k v d'
  end.

(** What [==] computes on two floats, and on an int and a float; and
    whether two floats, one of each decoded value, are one object
    ([x is y]): [json.loads] gives the same object for every [NaN]. *)
Variable float_eq : F -> F -> bool.
Variable float_is : F -> F -> bool.
Variable int_float_eq : Z -> F -> bool.

(** [v is w], where it changes a comparison.  A list compares its
    items, and a dict its values, with [x is y or x == y]; for two
    values that come from two calls of [json.loads] this differs from
    [x == y] on floats only, [==] answering true on every other value
    that is one object. *)
Definition same_float (v w : pyval) : bool :=
  match v, w with
  | PFloat x, PFloat y => float_is x y
  | _, _ => false
  end.

(** [v == w].  [bool] is a subclass of [int]: [True] and [False]
    compare as 1 and 0.  Lists are equal when they have the same
    length and equal items in order; dicts when they have the same
    number of keys and every key of the left one has an equal value
    in the right one; an item or a value is equal to the very same
    object without [==] being asked. *)
Fixpoint py_eq (v w : pyval) {struct v} : bool :=
  match v, w with
  | PNone, PNone => true
  | PBool a, PBool b => Bool.eqb a b
  | PBool a, PInt z => Z.eqb (Z.b2z a) z
  | PInt z, PBool a => Z.eqb z (Z.b2z a)
  | PBool a, PFloat x => int_float_eq (Z.b2z a) x
  | PFloat x, PBool a => int_float_eq (Z.b2z a) x
  | PInt a, PInt b => Z.eqb a b
  | PInt z, PFloat x => int_float_eq z x
  | PFloat x, PInt z => int_float_eq z x
  | PFloat x, PFloat y => float_eq x y
  | PStr a, PStr b => String.eqb a b
  | PList l, PList m =>
      (fix items_eq (l m : list pyval) {struct l} : bool :=
         match l, m with
         | [], [] => true
         | x :: l', y :: m' =>
             (same_float x y || py_eq x y) && items_eq l' m'
         | _, _ => false
         end) l m
  | PDict d, PDict e =>
      Nat.eqb (List.length d) (List.length e)
      && (fix all_in (d : list (string * pyval)) {struct d} : bool :=
            match d with
            | [] => true
            | (k, x) :: d' =>
                match dict_get k e with
                | Some y => same_float x y || py_eq x y
                | None => false
                end && all_in d'
            end) d
  | _, _ => false
  end.

(** Deep structural equality as the specification words it: two
    values are equal when they are of the same kind and equal part
    by part, the order of the keys of a map being irrelevant and the
    order of the items of an array significant.  A boolean is not a
    number; numbers are equal by value. *)
Fixpoint deep_equal (v w : pyval) {struct v} : bool :=
  match v, w with
  | PNone, PNone => true
  | PBool a, PBool b => Bool.eqb a b
  | PInt a, PInt b => Z.eqb a b
  | PInt z, PFloat x => int_float_eq z x
  | PFloat x, PInt z => int_float_eq z x
  | PFloat x, PFloat y => float_eq x y
  | PStr a, PStr b => String.eqb a b
  | PList l, PList m =>
      (fix items_eq (l m : list pyval) {struct l} : bool :=
         match l, m with
         | [], [] => true
         | x :: l', y :: m' => deep_equal x y && items_eq l' m'
         | _, _ => false
         end) l m
  | PDict d, PDict e =>
      Nat.eqb (List.length d) (List.length e)
      && (fix all_in (d : list (string * pyval)) {struct d} : bool :=
            match d with
            | [] => true
            | (k, x) :: d' =>
                match dict_get k e with
                | Some y => deep_equal x y
                | None => false
                end && all_in d'
            end) d
  | _, _ => false
  end.

(** The value with every boolean replaced by the integer it
    compares as. *)
Fixpoint bools_as_ints (v : pyval) : pyval :=
  match v with
  | PBool b => PInt (Z.b2z b)
  | PList l => PList (map bools_as_ints l)
  | PDict d => PDict (map (fun kv => (fst kv, bools_as_ints (snd kv))) d)
  | _ => v
  end.

End Values.

Arguments PNone {F}.
Arguments PBool {F} b.
Arguments PInt {F} z.
Arguments PFloat {F} x.
Arguments PStr {F} s.
Arguments PList {F} items.
Arguments PDict {F} items.
Arguments dict_get {A} k d.
Arguments dict_set {A} k v d.
Arguments same_float {F} float_is v w.
Arguments py_eq {F} float_eq float_is int_float_eq v w.
Arguments deep_equal {F} float_eq int_float_eq v w.
Arguments bools_as_ints {F} v.

End PyJson.

Import PyJson.

(** ** The library calls *)

(** What the program obtains from outside:
    - [subprocess_run cmd] is [subprocess.run(cmd, shell=True,
      capture_output=True, text=True, timeout=30).stdout], or the
      exception the call raises;
    - [re_search pattern string] is [bool(re.search(pattern, string))],
      or the exception raised for a pattern that is not a regular
      expression;
    - [json_loads s] is [json.loads(s)], or the exception it raises;
    - [pyfloat] with its comparisons and its identity stands for
      [float]. *)
Record World := mkWorld {
  pyfloat : Type;
  float_eq : pyfloat -> pyfloat -> bool;
  float_is : pyfloat -> pyfloat -> bool;
  int_float_eq : Z -> pyfloat -> bool;
  subprocess_run : string -> Res string;
  re_search : string -> string -> Res bool;
  json_loads : string -> Res (pyval pyfloat)
}.

(** ** TestRunner *)

Module TestRunner.

Record t := mk { command_template : string }.

(** [__init__]: [command_template or "echo {input}"]. *)
Definition init (command_template : option string) : t :=
  match command_template with
  | Some c => if truthy c then mk c else mk "echo {input}"
  | None => mk "echo {input}"
  end.

Section Methods.

Variable w : World.
Variable self : t.

(** The command line [_execute_command] builds. *)
Definition command_line (input_data : string) : string :=
  let escaped_input := replace quote_s (quote_s ++ quote_s) input_data in
  replace "{input}" (quote_s ++ escaped_input ++ quote_s)
          (command_template self).

Definition _execute_command (input_data : string) : Res string :=
  let cmd := command_line input_data in
  stdout <- subprocess_run w cmd ;;
  Ok (strip stdout).

Definition _compare_output (expected actual test_type : string)
  : Res bool :=
  let expected := strip expected in
  let actual := strip actual in
  if String.eqb test_type "exact" then
    Ok (String.eqb expected actual)
  else if String.eqb test_type "contains" then
    Ok (contains expected actual)
  else if String.eqb test_type "regex" then
    re_search w expected actual
  else if String.eqb test_type "json" then
    try_except
      (expected_json <- json_loads w expected ;;
       actual_json <- json_loads w actual ;;
       Ok (py_eq (float_eq w) (float_is w) (int_float_eq w)
                 expected_json actual_json))
      is_JSONDecodeError
      (fun _ => Ok false)
  else
    Ok (String.eqb expected actual).

(** [run_test]: the body of [try], and the handler of
    [except Exception as e]. *)
Definition run_test (test_case : TestCase) : Res TestResult :=
  try_except
    (actual_output <- _execute_command (input_data test_case) ;;
     passed <- _compare_output (expected_output test_case) actual_output
                               (test_type test_case) ;;
     Ok (mkTestResult test_case passed actual_output ""))
    is_Exception
    (fun e => Ok (mkTestResult test_case false "" (exn_str e))).

End Methods.

End TestRunner.

Import TestRunner.

(** ** A reference decoder, a reference shell and concrete worlds *)

(** A decoder after [json.decoder] for the documents without
    floating-point literals and without [\u] escapes; the three float
    constants [NaN], [Infinity] and [-Infinity] are read through
    [constant].  It answers [Invalid] on every other text.  It serves
    to run the comparator on concrete documents. *)
Module JsonRef.

(** What reading a value gives: the value and the text after it, a text
    that is not a document, or an integer literal of more digits than
    [int] converts. *)
Inductive Outcome (A : Type) : Type :=
| Parsed (a : A) (rest : string)
| Invalid
| TooLong (digits : nat).
Arguments Parsed {A} a rest.
Arguments Invalid {A}.
Arguments TooLong {A} digits.

Definition is_ws (c : ascii) : bool :=
  let n := nat_of_ascii c in
  ((n =? 32) || (n =? 9) || (n =? 10) || (n =? 13))%nat.

Definition is_digit (c : ascii) : bool :=
  let n := nat_of_ascii c in ((48 <=? n) && (n <=? 57))%nat.

Fixpoint skip_ws (s : string) : string :=
  match s with
  | String c s' => if is_ws c then skip_ws s' else s
  | "" => ""
  end.

(** The digits at the head of [s], as a number (from [acc]), how many
    there are, and the rest. *)
Fixpoint digits (acc : Z) (count : nat) (s : string) : Z * nat * string :=
  match s with
  | String c s' =>
      if is_digit c
      then digits (10 * acc + Z.of_nat (nat_of_ascii c - 48)) (S count) s'
      else (acc, count, s)
  | "" => (acc, count, "")
  end.

Definition starts_fraction (s : string) : bool :=
  match s with
  | String c _ =>
      Ascii.eqb c "."%char || Ascii.eqb c "e"%char || Ascii.eqb c "E"%char
  | "" => false
  end.

(** An integer literal: an optional minus sign, then a single zero or
    digits that do not start with zero; not followed by a fraction or
    an exponent; of 4300 digits at most. *)
Definition number (s : string) : Outcome Z :=
  let (neg, s1) :=
    match s with
    | String "-"%char s' => (true, s')
    | _ => (false, s)
    end in
  match s1 with
  | String "0"%char s2 =>
      if starts_fraction s2 then Invalid else Parsed 0%Z s2
  | _ =>
      match digits 0 0 s1 with
      | (_, O, _) => Invalid
      | (z, count, s2) =>
          if starts_fraction s2 then Invalid
          else if (4300 <? count)%nat then TooLong count
          else Parsed (if neg then Z.opp z else z) s2
      end
  end.

(** The characters of a string literal after its opening quote, up to
    the closing one. *)
Fixpoint string_body (s : string) : option (string * string) :=
  match s with
  | "" => None
  | String c s' =>
      if Ascii.eqb c dquote then Some ("", s')
      else if Ascii.eqb c "\"%char then
        match s' with
        | String e s2 =>
            let keep (ch : ascii) :=
              match string_body s2 with
              | Some (t, r) => Some (String ch t, r)
              | None => None
              end in
            if Ascii.eqb e dquote then keep dquote
            else if Ascii.eqb e "\"%char then keep "\"%char
            else if Ascii.eqb e "/"%char then keep "/"%char
            else if Ascii.eqb e "b"%char then keep "008"%char
            else if Ascii.eqb e "f"%char then keep "012"%char
            else if Ascii.eqb e "n"%char then keep "010"%char
            else if Ascii.eqb e "r"%char then keep "013"%char
            else if Ascii.eqb e "t"%char then keep "009"%char
            else None
        | "" => None
        end
      else if (nat_of_ascii c <? 32)%nat then None
      else
        match string_body s' with
        | Some (t, r) => Some (String c t, r)
        | None => None
        end
  end.

Section Decode.

Variable F : Type.

(** The float that stands for each of the constants [NaN], [Infinity]
    and [-Infinity], when the world has one. *)
Variable constant : string -> option F.

Definition float_constant (word s : string) : Outcome (pyval F) :=
  match constant word with
  | Some x => Parsed (PFloat x) (drop (String.length word) s)
  | None => Invalid
  end.

(** [value] reads one value at the head of [s]; [elements] the items
    of an array after the first, [members] the items of an object
    after the first, each up to the closing bracket. *)
Fixpoint value (fuel : nat) (s : string) {struct fuel}
  : Outcome (pyval F) :=
  match fuel with
  | O => Invalid
  | S n =>
      match s with
      | "" => Invalid
      | String c s' =>
          if Ascii.eqb c dquote then
            match string_body s' with
            | Some (t, r) => Parsed (PStr t) r
            | None => Invalid
            end
          else if Ascii.eqb c "["%char then
            match skip_ws s' with
            | String "]"%char r => Parsed (PList []) r
            | s1 =>
                match value n s1 with
                | Parsed v r => elements n [v] (skip_ws r)
                | Invalid => Invalid
                | TooLong k => TooLong k
                end
            end
          else if Ascii.eqb c "{"%char then
            match skip_ws s' with
            | String "}"%char r => Parsed (PDict []) r
            | s1 => members n [] (String ","%char s1)
            end
          else if String.prefix "null" s then Parsed PNone (drop 4 s)
          else if String.prefix "true" s then Parsed (PBool true) (drop 4 s)
          else if String.prefix "false" s then Parsed (PBool false) (drop 5 s)
          else if String.prefix "NaN" s then float_constant "NaN" s
          else if String.prefix "Infinity" s then float_constant "Infinity" s
          else if String.prefix "-Infinity" s then
            float_constant "-Infinity" s
          else
            match number s with
            | Parsed z r => Parsed (PInt z) r
            | Invalid => Invalid
            | TooLong k => TooLong k
            end
      end
  end
with elements (fuel : nat) (acc : list (pyval F)) (s : string)
     {struct fuel} : Outcome (pyval F) :=
  match fuel with
  | O => Invalid
  | S n =>
      match s with
      | String "]"%char r => Parsed (PList acc) r
      | String ","%char r =>
          match value n (skip_ws r) with
          | Parsed v r' => elements n (acc ++ [v])%list (skip_ws r')
          | Invalid => Invalid
          | TooLong k => TooLong k
          end
      | _ => Invalid
      end
  end
with members (fuel : nat) (acc : list (string * pyval F)) (s : string)
     {struct fuel} : Outcome (pyval F) :=
  match fuel with
  | O => Invalid
  | S n =>
      match s with
      | String "}"%char r => Parsed (PDict acc) r
      | String ","%char r =>
          match skip_ws r with
          | String q r1 =>
              if Ascii.eqb q dquote then
                match string_body r1 with
                | Some (k, r2) =>
                    match skip_ws r2 with
                    | String ":"%char r3 =>
                        match value n (skip_ws r3) with
                        | Parsed v r4 =>
                            members n (dict_set k v acc) (skip_ws r4)
                        | Invalid => Invalid
                        | TooLong d => TooLong d
                        end
                    | _ => Invalid
                    end
                | None => Invalid
                end
              else Invalid
          | "" => Invalid
          end
      | _ => Invalid
      end
  end.

(** [loads]: one value between optional whitespace, nothing after. *)
Definition loads (s : string) : Outcome (pyval F) :=
  match value (2 * String.length s + 2) (skip_ws s) with
  | Parsed v r =>
      match skip_ws r with
      | "" => Parsed v ""
      | _ => Invalid
      end
  | Invalid => Invalid
  | TooLong k => TooLong k
  end.

End Decode.

Arguments loads {F} constant s.

End JsonRef.

(** What [subprocess.run] returns: the exit status and the two captured
    streams.  [_execute_command] reads [stdout] only. *)
Record CompletedProcess := mkCompleted {
  returncode : Z;
  stdout : string;
  stderr : string
}.

(** The oracle [subprocess_run] of a world, for a given way of running
    a command line. *)
Definition stdout_of (run : string -> Res CompletedProcess) (cmd : string)
  : Res string :=
  p <- run cmd ;;
  Ok (stdout p).

(** How [/bin/sh], which [subprocess.run] starts for [shell=True] on a
    POSIX host, cuts a command line into commands and words, for the
    lines made of ordinary characters, blanks, [;], backslashes and
    quotes.  Outside quotes a blank ends a word and [;] a command, a
    backslash makes the next character ordinary; between double quotes
    a backslash does so before a double quote, a backslash, [$] and a
    backquote only; between single quotes every character is ordinary;
    a backslash followed by a newline is dropped.  [read] answers [None]
    on a line that uses anything else of the shell language (expansions,
    redirections, patterns, operators) and on a line the shell
    refuses. *)
Module Sh.

Inductive Mode := bare | in_double | in_single.

Definition is_blank (c : ascii) : bool :=
  Ascii.eqb c " "%char || Ascii.eqb c "009"%char.

(** The characters with a meaning of their own outside quotes, beyond
    those [read_go] handles. *)
Definition is_special (c : ascii) : bool :=
  existsb (Ascii.eqb c)
          ["$"; "`"; "&"; "|"; "<"; ">"; "("; ")"; "*"; "?"; "["; "#"; "~";
           "{"; "}"; "!"; "="; "%"; "010"]%char.

(** A character added to the word under construction. *)
Definition add (c : ascii) (word : option string) : option string :=
  match word with
  | Some w => Some (w ++ String c "")
  | None => Some (String c "")
  end.

(** A quote begins a word, empty so far, when none is under
    construction. *)
Definition open (word : option string) : option string :=
  match word with
  | Some w => Some w
  | None => Some ""
  end.

(** The word under construction, if any, closed and put after
    [words]. *)
Definition close (word : option string) (words : list string)
  : list string :=
  match word with
  | Some w => (words ++ [w])%list
  | None => words
  end.

(** The scan: the quoting mode, the word under construction, the words
    of the command under construction, the commands read. *)
Fixpoint read_go (mode : Mode) (word : option string) (words : list string)
         (commands : list (list string)) (s : string)
  : option (list (list string)) :=
  match s with
  | "" =>
      match mode with
      | bare =>
          match close word words with
          | [] => Some commands
          | command => Some (commands ++ [command])%list
          end
      | _ => None
      end
  | String c s' =>
      match mode with
      | bare =>
          if is_blank c then read_go bare None (close word words) commands s'
          else if Ascii.eqb c ";"%char then
            match close word words with
            | [] => None
            | command => read_go bare None [] (commands ++ [command])%list s'
            end
          else if Ascii.eqb c "\"%char then
            match s' with
            | String d s2 =>
                if Ascii.eqb d LF then read_go bare word words commands s2
                else read_go bare (add d word) words commands s2
            | "" => read_go bare (add c word) words commands s'
            end
          else if Ascii.eqb c dquote then
            read_go in_double (open word) words commands s'
          else if Ascii.eqb c "'"%char then
            read_go in_single (open word) words commands s'
          else if is_special c then None
          else read_go bare (add c word) words commands s'
      | in_double =>
          if Ascii.eqb c dquote then read_go bare word words commands s'
          else if Ascii.eqb c "\"%char then
            match s' with
            | String d s2 =>
                if Ascii.eqb d LF then
                  read_go in_double word words commands s2
                else if Ascii.eqb d dquote || Ascii.eqb d "\"%char
                        || Ascii.eqb d "$"%char || Ascii.eqb d "`"%char
                then read_go in_double (add d word) words commands s2
                else read_go in_double (add c word) words commands s'
            | "" => None
            end
          else if Ascii.eqb c "$"%char || Ascii.eqb c "`"%char then None
          else read_go in_double (add c word) words commands s'
      | in_single =>
          if Ascii.eqb c "'"%char then read_go bare word words commands s'
          else read_go in_single (add c word) words commands s'
      end
  end.

Definition read (line : string) : option (list (list string)) :=
  read_go bare None [] [] line.

End Sh.

(** Concrete worlds for the examples. *)
Module Demo.

Definition no_float_eq (x y : Empty_set) : bool := match x with end.
Definition no_int_float_eq (z : Z) (x : Empty_set) : bool :=
  match x with end.

(** A stand-in for the shell: [echo] prints the rest of its line as
    it is (as [cmd.exe] does), [sleep] outlasts the timeout, every
    other command prints nothing. *)
Definition shell (cmd : string) : Res string :=
  if startswith "echo " cmd then Ok (drop 5 cmd ++ newline)
  else if startswith "sleep " cmd then Raise (TimeoutExpired cmd 30)
  else Ok "".

(** A stand-in for [re.search] on the patterns the examples use: a
    lone opening bracket is refused as [re] refuses it, any other
    pattern is read as ordinary characters. *)
Definition search (pattern subject : string) : Res bool :=
  if String.eqb pattern "["
  then Raise (re_error_at "unterminated character set" 0)
  else Ok (contains pattern subject).

(** [json.loads] through the reference decoder. *)
Definition loads_with {F : Type} (constant : string -> option F)
           (s : string) : Res (pyval F) :=
  match JsonRef.loads constant s with
  | JsonRef.Parsed v _ => Ok v
  | JsonRef.Invalid => Raise (JSONDecodeError "Expecting value" 1 1 0)
  | JsonRef.TooLong digits => Raise (ValueError_int_digits digits)
  end.

(** A world without floats. *)
Definition loads (s : string) : Res (pyval Empty_set) :=
  loads_with (fun _ => None) s.

Definition world : World :=
  mkWorld Empty_set no_float_eq no_float_eq no_int_float_eq shell search
          loads.

(** A machine on which no shell can be started. *)
Definition no_shell (cmd : string) : Res string :=
  Raise (OSError 2 "No such file or directory" (Some "/bin/sh")).

Definition world_without_shell : World :=
  mkWorld Empty_set no_float_eq no_float_eq no_int_float_eq no_shell search
          loads.

(** The three floats [json.loads] has as constants.  [NaN] is equal to
    no float, itself included; each constant is one object. *)
Inductive Constant := NaN | PosInf | NegInf.

Definition constant_eq (x y : Constant) : bool :=
  match x, y with
  | PosInf, PosInf => true
  | NegInf, NegInf => true
  | _, _ => false
  end.

Definition constant_is (x y : Constant) : bool :=
  match x, y with
  | NaN, NaN => true
  | PosInf, PosInf => true
  | NegInf, NegInf => true
  | _, _ => false
  end.

Definition int_constant_eq (z : Z) (x : Constant) : bool := false.

Definition constant_of (word : string) : option Constant :=
  if String.eqb word "NaN" then Some NaN
  else if String.eqb word "Infinity" then Some PosInf
  else if String.eqb word "-Infinity" then Some NegInf
  else None.

(** A world whose floats are these constants. *)
Definition world_with_constants : World :=
  mkWorld Constant constant_eq constant_is int_constant_eq shell search
          (loads_with constant_of).

(** A POSIX shell that has the builtin [echo] and finds no other
    program: [echo] prints its arguments with a blank between them and
    a newline; another command gives the status 127 and a message on
    the standard error; the commands of a line run one after the other
    and the status is that of the last one; a line that [Sh.read] does
    not read is answered as a syntax error. *)
Definition run_command (p : CompletedProcess) (words : list string)
  : CompletedProcess :=
  match words with
  | [] => p
  | program :: arguments =>
      if String.eqb program "echo"
      then mkCompleted 0 (stdout p ++ join " " arguments ++ newline)
                       (stderr p)
      else mkCompleted 127 (stdout p)
                       (stderr p ++ "/bin/sh: 1: " ++ program
                        ++ ": not found" ++ newline)
  end.

Definition sh (cmd : string) : Res CompletedProcess :=
  match Sh.read cmd with
  | Some commands => Ok (fold_left run_command commands (mkCompleted 0 "" ""))
  | None =>
      Ok (mkCompleted 2 "" ("/bin/sh: 1: Syntax error" ++ newline))
  end.

Definition posix_world : World :=
  mkWorld Empty_set no_float_eq no_float_eq no_int_float_eq (stdout_of sh)
          search loads.

(** The documents of the specification's example. *)
Definition doc_ab : string :=
  "{" ++ quote_s ++ "a" ++ quote_s ++ ":1,"
      ++ quote_s ++ "b" ++ quote_s ++ ":2}".
Definition doc_ba : string :=
  "{" ++ quote_s ++ "b" ++ quote_s ++ ":2,"
      ++ quote_s ++ "a" ++ quote_s ++ ":1}".

(** A file whose first section has nothing after the delimiter. *)
Definition file_with_empty_section : string :=
  "### TEST:" ++ newline
  ++ "### TEST: Addition" ++ newline
  ++ "INPUT: 2 + 2" ++ newline
  ++ "EXPECTED: 4" ++ newline.

(** An integer literal of 4301 digits. *)
Fixpoint zeros (n : nat) : string :=
  match n with
  | O => ""
  | S k => String "0"%char (zeros k)
  end.

Definition long_integer : string := String "1"%char (zeros 4300).

(** An input that ends the quoting of [_execute_command] under
    [/bin/sh]: backslash, quote, a command between semicolons,
    backslash, quote. *)
Definition injection : string :=
  "\" ++ quote_s ++ " ; echo INJECTED ; \" ++ quote_s.

End Demo.

(** ** The specification's vocabulary *)

Module Spec.

(** The keyword that introduces each field block. *)
Definition keyword (b : Block) : string :=
  match b with
  | description_block => "DESCRIPTION:"
  | input_block => "INPUT:"
  | expected_block => "EXPECTED:"
  end.

(** Flushing the buffer into the field the state owns: the buffered
    lines joined with newline and trimmed; nothing in state [NONE].
    ([TestParser._save_block] words the same.) *)
Definition flush (f : Frame) : Frame :=
  let text := strip (join newline (block_content f)) in
  match current_block f with
  | Some description_block => set_description f text
  | Some input_block => set_input_data f text
  | Some expected_block => set_expected_output f text
  | None => f
  end.

(** The buffer seeded with the text after the keyword, when there is
    some. *)
Definition seed (rest : string) : list string :=
  match strip rest with
  | "" => []
  | v => [v]
  end.

(** The value with every double quote doubled. *)
Fixpoint double_quotes (s : string) : string :=
  match s with
  | "" => ""
  | String c s' =>
      if Ascii.eqb c dquote
      then String dquote (String dquote (double_quotes s'))
      else String c (double_quotes s')
  end.

(** Equality of two decoded values in the words of deep equality: the
    booleans are read as the numbers 1 and 0; two floats are compared
    by [==] when they are the two values compared, and inside an array
    or a map a float is equal, besides, to the very same float
    object. *)
Definition json_equal {F : Type} (feq fis : F -> F -> bool)
           (ifeq : Z -> F -> bool) (v w : pyval F) : bool :=
  match v, w with
  | PFloat x, PFloat y => feq x y
  | _, _ =>
      deep_equal (fun x y => fis x y || feq x y) ifeq
                 (bools_as_ints v) (bools_as_ints w)
  end.

(** [sub] is a substring of [s]. *)
Definition substring_of (sub s : string) : Prop :=
  exists pre post, s = pre ++ sub ++ post.

(** The positions, counted from [i], at which [sub] occurs in [s]. *)
Fixpoint occurrences (sub s : string) (i : nat) : list nat :=
  ((if String.prefix sub s then [i] else [])
   ++ match s with
      | "" => []
      | String _ s' => occurrences sub s' (S i)
      end)%list.

(** The template holds the placeholder once, between [pre] and
    [post]. *)
Definition single_placeholder (template pre post : string) : Prop :=
  template = pre ++ "{input}" ++ post
  /\ forall a b, template = a ++ "{input}" ++ b -> a = pre /\ b = post.

(** The pattern is not a regular expression: [re] raises on it
    whatever the subject. *)
Definition invalid_pattern (w : World) (pattern : string) : Prop :=
  forall subject, exists e, re_search w pattern subject = Raise e.

(** A mode the comparator has no branch for. *)
Definition unrecognized (mode : string) : Prop :=
  mode <> "exact" /\ mode <> "contains" /\ mode <> "regex"
  /\ mode <> "json".

End Spec.

Import Spec.

(** ** The rest of the program: dictionary helpers, reporter, entry point *)

(** The two helpers of [TestParser] that write a block into a
    dictionary of variables; a dictionary lists its items in insertion
    order. *)
Module ParserHelpers.

Definition _save_block (block_type : string) (content : list string)
           (var_dict : list (string * string)) : list (string * string) :=
  let text := strip (join newline content) in
  if String.eqb block_type "description" then
    dict_set "description" text var_dict
  else if String.eqb block_type "input" then
    dict_set "input_data" text var_dict
  else if String.eqb block_type "expected" then
    dict_set "expected_output" text var_dict
  else var_dict.

Definition _save_block_to_vars (block_type : string) (content : list string)
           (var_dict : list (string * string)) : list (string * string) :=
  let text := strip (join newline content) in
  if String.eqb block_type "description" then
    dict_set "description" text var_dict
  else if String.eqb block_type "input" then
    dict_set "input_data" text var_dict
  else if String.eqb block_type "expected" then
    dict_set "expected_output" text var_dict
  else var_dict.

End ParserHelpers.

(** [TestReporter.print_results]: the counts of its summary line and
    the value it returns; the text it prints is not modelled. *)
Module TestReporter.

(** [sum(1 for r in results if r.passed)]. *)
Fixpoint count_passed (results : list TestResult) : Z :=
  match results with
  | [] => 0
  | r :: more => ((if passed r then 1 else 0) + count_passed more)%Z
  end.

(** Total, passed and failed. *)
Definition summary (results : list TestResult) : Z * Z * Z :=
  let passed := count_passed results in
  let failed := (Z.of_nat (List.length results) - passed)%Z in
  (Z.of_nat (List.length results), passed, failed).

Definition print_results (results : list TestResult) : bool :=
  let passed := count_passed results in
  let failed := (Z.of_nat (List.length results) - passed)%Z in
  Z.eqb failed 0.

End TestReporter.

(** The loops and the filter of [main]; what it prints is not
    modelled. *)
Module Main.

(** The files as the program reads them: opening a file and reading it
    as UTF-8 text. *)
Record FileSystem := mkFileSystem {
  read_text : string -> Res string
}.

(** [TestParser.parse_file] with the file opened and read. *)
Definition parse_path (fs : FileSystem) (file_path : string)
  : Res (list TestCase) :=
  content <- read_text fs file_path ;;
  Ok (parse_file content file_path).

(** The loop over [test_files]: a file whose parsing raises is passed
    over. *)
Fixpoint parse_all (fs : FileSystem) (test_files : list string)
         (all_tests : list TestCase) : Res (list TestCase) :=
  match test_files with
  | [] => Ok all_tests
  | test_file :: more =>
      all_tests <-
        try_except
          (tests <- parse_path fs test_file ;;
           Ok (all_tests ++ tests)%list)
          is_Exception
          (fun _ => Ok all_tests) ;;
      parse_all fs more all_tests
  end.

(** [tag in t.tags] and [any(tag in t.tags for tag in tag_list)]. *)
Definition tag_in (tag : string) (t : TestCase) : bool :=
  existsb (String.eqb tag) (tags t).

Definition any_tag_in (tag_list : list string) (t : TestCase) : bool :=
  existsb (fun tag => tag_in tag t) tag_list.

(** The filter [if args.tags: ...]. *)
Definition filter_by_tags (tags_arg : option string)
           (all_tests : list TestCase) : list TestCase :=
  match tags_arg with
  | Some tags_text =>
      if truthy tags_text then
        let tag_list := map strip (split "," tags_text) in
        filter (any_tag_in tag_list) all_tests
      else all_tests
  | None => all_tests
  end.

(** The loop that runs the tests. *)
Fixpoint run_all (w : World) (runner : TestRunner.t)
         (all_tests : list TestCase) : Res (list TestResult) :=
  match all_tests with
  | [] => Ok []
  | test :: more =>
      result <- run_test w runner test ;;
      results <- run_all w runner more ;;
      Ok (result :: results)
  end.

End Main.

(** ** More vocabulary *)

Module Spec2.

(** A line that opens a field block. *)
Definition opens_block (line : string) : bool :=
  startswith "DESCRIPTION:" (strip line)
  || startswith "INPUT:" (strip line)
  || startswith "EXPECTED:" (strip line).

(** A line that sets the type or the tags. *)
Definition sets_attribute (line : string) : bool :=
  startswith "TYPE:" (strip line) || startswith "TAGS:" (strip line).

(** The lines a block keeps of the lines that follow its keyword: the
    non-blank ones that set no attribute, each trimmed. *)
Definition content_lines (body : list string) : list string :=
  map strip
      (filter (fun l => truthy (strip l) && negb (sets_attribute l)) body).

(** The lines of a block: those up to the next line that opens one. *)
Fixpoint block_body (rest : list string) : list string :=
  match rest with
  | [] => []
  | l :: rest' => if opens_block l then [] else l :: block_body rest'
  end.

(** The field of a frame that a block owns. *)
Definition field (b : Block) (f : Frame) : string :=
  match b with
  | description_block => v_description f
  | input_block => v_input_data f
  | expected_block => v_expected_output f
  end.

(** The same for a test case. *)
Definition case_field (b : Block) (tc : TestCase) : string :=
  match b with
  | description_block => description tc
  | input_block => input_data tc
  | expected_block => expected_output tc
  end.

(** A string without whitespace at either end. *)
Definition trimmed (s : string) : Prop := strip s = s.

(** A frame, and a test case, whose texts are trimmed and whose type is
    in lower case. *)
Definition clean_frame (f : Frame) : Prop :=
  trimmed (v_description f) /\ trimmed (v_input_data f)
  /\ trimmed (v_expected_output f)
  /\ trimmed (v_test_type f) /\ lower (v_test_type f) = v_test_type f
  /\ Forall trimmed (v_tags f).

Definition clean_case (tc : TestCase) : Prop :=
  trimmed (name tc) /\ trimmed (description tc) /\ trimmed (input_data tc)
  /\ trimmed (expected_output tc)
  /\ trimmed (test_type tc) /\ lower (test_type tc) = test_type tc
  /\ Forall trimmed (tags tc).

(** A line that neither opens a block nor sets an attribute. *)
Definition plain (line : string) : bool :=
  negb (opens_block line) && negb (sets_attribute line).

(** The key under which the dictionary helpers store a block. *)
Definition key_of (block_type : string) : option string :=
  if String.eqb block_type "description" then Some "description"
  else if String.eqb block_type "input" then Some "input_data"
  else if String.eqb block_type "expected" then Some "expected_output"
  else None.

(** The test cases of the files that can be read, in order. *)
Definition cases_of (fs : Main.FileSystem) (files : list string)
  : list TestCase :=
  flat_map (fun file => match Main.read_text fs file with
                        | Ok content => parse_file content file
                        | Raise _ => []
                        end) files.

End Spec2.

Import Spec2.

(** * Properties *)

(** ** Examples *)

Example strip_example : strip ("  a b " ++ newline) = "a b".
Proof. reflexivity. Qed.

Example split_example : split "," "a,,b" = ["a"; ""; "b"].
Proof. reflexivity. Qed.

Example split_delimiter_example :
  split "### TEST:" "x### TEST: A### TEST:" = ["x"; " A"; ""].
Proof. reflexivity. Qed.

Example replace_example :
  replace "{input}" "<v>" "echo {input} {input}!" = "echo <v> <v>!".
Proof. reflexivity. Qed.

(** The first section of [sample_math.test]. *)
Example parse_sample :
  parse_file
    ("### TEST: Addition Test" ++ newline
     ++ "DESCRIPTION: Test basic addition" ++ newline
     ++ "TYPE: exact" ++ newline
     ++ "TAGS: math, basic" ++ newline
     ++ "INPUT:" ++ newline ++ "2 + 2" ++ newline
     ++ "EXPECTED:" ++ newline ++ "4" ++ newline ++ newline)
    "sample_math.test"
  = [ mkTestCase "Addition Test" "Test basic addition" "2 + 2" "4" "exact"
                 "sample_math.test" 0 ["math"; "basic"] ].
Proof. reflexivity. Qed.

(** A block of several lines, with a blank line inside. *)
Example parse_multiline :
  option_map expected_output
    (_parse_test_section
       (" T" ++ newline ++ "EXPECTED:" ++ newline ++ " a " ++ newline
        ++ newline ++ "b" ++ newline)
       "f.test")
  = Some ("a" ++ newline ++ "b").
Proof. reflexivity. Qed.

Example compare_contains_example :
  _compare_output Demo.world "3.3" "3.3333333333333335" "contains" = Ok true.
Proof. reflexivity. Qed.

Example decode_example :
  Demo.loads " [ 1, [true, null], {} ] "
  = Ok (PList [PInt 1; PList [PBool true; PNone]; PDict []]).
Proof. reflexivity. Qed.

Example decode_trailing_comma :
  JsonRef.loads (F := Empty_set) (fun _ => None) "[1,]" = JsonRef.Invalid.
Proof. reflexivity. Qed.

(** The shell keeps a quoted blank in its word, and reads two double
    quotes in a row as the end of one quoted part and the start of the
    next, not as a quote. *)
Example sh_read_example :
  Sh.read ("echo " ++ quote_s ++ "a b" ++ quote_s ++ " 'c d' e\ f ; ls")
  = Some [["echo"; "a b"; "c d"; "e f"]; ["ls"]].
Proof. reflexivity. Qed.

Example sh_read_doubled_quote :
  Sh.read ("echo " ++ quote_s ++ "a" ++ quote_s ++ quote_s ++ "b" ++ quote_s)
  = Some [["echo"; "ab"]].
Proof. reflexivity. Qed.

Example decode_constants :
  Demo.loads_with Demo.constant_of "[NaN, -Infinity, 1]"
  = Ok (PList [PFloat Demo.NaN; PFloat Demo.NegInf; PInt 1]).
Proof. reflexivity. Qed.

(** The shell cannot be started: the result carries the text of the
    [OSError]. *)
Example launch_failure :
  run_test Demo.world_without_shell (TestRunner.init None)
           (mkTestCase "t" "" "1" "1" "exact" "f.test" 0 [])
  = Ok (mkTestResult (mkTestCase "t" "" "1" "1" "exact" "f.test" 0 []) false
                     "" "[Errno 2] No such file or directory: '/bin/sh'").
Proof. reflexivity. Qed.

(** ** Strings *)

Section StringFacts.


Lemma append_assoc (a b c : string) : (a ++ b) ++ c = a ++ b ++ c.
Proof. induction a as [|x a IH]; simpl; congruence. Qed.

Lemma append_is_empty (a b : string) : a ++ b = "" -> a = "" /\ b = "".
Proof. destruct a; simpl; intros H; [auto | discriminate]. Qed.


Lemma prefix_cons (a b : ascii) (p s : string) :
  String.prefix (String a p) (String b s)
  = Ascii.eqb a b && String.prefix p s.
Proof.
  simpl. destruct (ascii_dec a b) as [->|Hab].
  - now rewrite Ascii.eqb_refl.
  - apply Ascii.eqb_neq in Hab. now rewrite Hab.
Qed.

Lemma prefix_empty (s : string) : String.prefix "" s = true.
Proof. destruct s; reflexivity. Qed.

Lemma prefix_append (p s : string) : String.prefix p (p ++ s) = true.
Proof.
  induction p as [|c p IH]; [apply prefix_empty|].
  change (String c p ++ s) with (String c (p ++ s)).
  rewrite prefix_cons, Ascii.eqb_refl. exact IH.
Qed.

Lemma prefix_inv (p s : string) :
  String.prefix p s = true -> exists r, s = p ++ r.
Proof.
  revert s. induction p as [|c p IH]; intros s H.
  - exists s. reflexivity.
  - destruct s as [|d s]; [discriminate|].
    rewrite prefix_cons in H. apply andb_true_iff in H as [Hc Hp].
    apply Ascii.eqb_eq in Hc. subst d.
    destruct (IH s Hp) as [r ->]. exists r. reflexivity.
Qed.


(** [contains] decides [substring_of]. *)
Lemma contains_spec (sub s : string) :
  contains sub s = true <-> substring_of sub s.
Proof.
  unfold substring_of. induction s as [|c s IH].
  - change (contains sub "") with (String.prefix sub "" || false).
    rewrite orb_false_r. split.
    + intros H. apply prefix_inv in H as [r Hr]. exists "", r. exact Hr.
    + intros (pre & post & H). symmetry in H.
      apply append_is_empty in H as [-> H]. simpl in H.
      apply append_is_empty in H as [-> _]. reflexivity.
  - change (contains sub (String c s))
      with (String.prefix sub (String c s) || contains sub s).
    rewrite orb_true_iff. split.
    + intros [H|H].
      * apply prefix_inv in H as [r Hr]. exists "", r. exact Hr.
      * apply IH in H as (pre & post & ->). exists (String c pre), post.
        reflexivity.
    + intros (pre & post & H). destruct pre as [|d pre].
      * left. simpl in H. rewrite H. apply prefix_append.
      * right. apply IH. simpl in H. injection H as _ H.
        exists pre, post. exact H.
Qed.

Lemma contains_empty (s : string) : contains "" s = true.
Proof. destruct s; reflexivity. Qed.

(** [split] always returns at least one piece. *)
Lemma split_not_nil (sep s : string) : split sep s <> [].
Proof. unfold split. destruct (split_go sep 0 s). discriminate. Qed.


End StringFacts.

(** ** Exceptions *)

(** Every exception of the model prints as a non-empty message. *)
Lemma exn_str_nonempty (e : PyException) : exn_str e <> "".
Proof.
  destruct e; simpl; try discriminate.
  - destruct msg; discriminate.
  - destruct msg; discriminate.
Qed.

(** ** Parser: nameless sections *)

(** C1 (the program departs from the claim).  The claim: a section whose
    first line is empty after trimming is skipped and yields no
    [TestCase], so every parsed [TestCase] has a non-empty name.  The
    program: [_parse_test_section] answers a [TestCase] for every
    section, its guard [if not lines] never firing since [split] gives
    at least one piece; a section that is blank altogether yields the
    [TestCase] with the empty name, and [parse_file] keeps it.  The file
    made of an empty section followed by the section [Addition] parses
    to two test cases, the first one nameless. *)
Theorem blank_section_yields_nameless_test (file_path : string) :
  (forall section,
      exists tc, _parse_test_section section file_path = Some tc)
  /\ (forall section, strip section = "" ->
        _parse_test_section section file_path
        = Some (mkTestCase "" "" "" "" "exact" file_path 0 []))
  /\ parse_file Demo.file_with_empty_section file_path
     = [ mkTestCase "" "" "" "" "exact" file_path 0 [];
         mkTestCase "Addition" "" "2 + 2" "4" "exact" file_path 0 [] ].
Proof.
  split; [|split].
  - intros section. unfold _parse_test_section.
    destruct (split newline (strip section)) eqn:E.
    + exfalso. exact (split_not_nil _ _ E).
    + eexists. reflexivity.
  - intros section H. unfold _parse_test_section. rewrite H. reflexivity.
  - reflexivity.
Qed.

(** ** Comparator *)

Section Comparator.

Variable w : World.

Lemma compare_exact (expected actual : string) :
  _compare_output w expected actual "exact"
  = Ok (String.eqb (strip expected) (strip actual)).
Proof. reflexivity. Qed.

Lemma compare_contains (expected actual : string) :
  _compare_output w expected actual "contains"
  = Ok (contains (strip expected) (strip actual)).
Proof. reflexivity. Qed.

Lemma compare_regex (expected actual : string) :
  _compare_output w expected actual "regex"
  = re_search w (strip expected) (strip actual).
Proof. reflexivity. Qed.

Lemma compare_other (mode expected actual : string) :
  unrecognized mode ->
  _compare_output w expected actual mode
  = Ok (String.eqb (strip expected) (strip actual)).
Proof.
  intros (H1 & H2 & H3 & H4). unfold _compare_output.
  apply String.eqb_neq in H1, H2, H3, H4.
  now rewrite H1, H2, H3, H4.
Qed.

End Comparator.

(** C6.  In mode [contains] the comparator answers true exactly when the
    trimmed expected string is a substring of the trimmed actual string
    (expected in actual), and false otherwise; with an empty expected
    string it answers true whatever the actual string. *)
Theorem contains_mode_is_substring (w : World) (expected actual : string) :
  (_compare_output w expected actual "contains" = Ok true
   <-> substring_of (strip expected) (strip actual))
  /\ (_compare_output w expected actual "contains" = Ok false
      <-> ~ substring_of (strip expected) (strip actual))
  /\ _compare_output w "" actual "contains" = Ok true.
Proof.
  rewrite !compare_contains. repeat split.
  - intros H. apply contains_spec. congruence.
  - intros H. apply contains_spec in H. now rewrite H.
  - intros H Hs. apply contains_spec in Hs. congruence.
  - intros H. destruct (contains (strip expected) (strip actual)) eqn:E.
    + exfalso. apply H. now apply contains_spec.
    + reflexivity.
  - change (strip "") with "". now rewrite contains_empty.
Qed.

(** C7.  For a mode that is none of [exact], [contains], [regex] and
    [json], the comparator does what it does in mode [exact]: it answers
    whether the two strings are equal once both are trimmed. *)
Theorem unrecognized_mode_is_exact
        (w : World) (mode expected actual : string) :
  unrecognized mode ->
  _compare_output w expected actual mode
  = _compare_output w expected actual "exact"
  /\ (_compare_output w expected actual mode = Ok true
      <-> strip expected = strip actual)
  /\ (_compare_output w expected actual mode = Ok false
      <-> strip expected <> strip actual).
Proof.
  intros H. rewrite (compare_other w mode expected actual H), compare_exact.
  split; [reflexivity|].
  destruct (String.eqb_spec (strip expected) (strip actual)) as [E|E];
    split; split; intros H'; try reflexivity; try congruence.
Qed.

Lemma unrecognized_mode_is_exact_witness :
  _compare_output Demo.world " 4 " "4" "fuzzy"
  = _compare_output Demo.world " 4 " "4" "exact"
  /\ (_compare_output Demo.world " 4 " "4" "fuzzy" = Ok true
      <-> strip " 4 " = strip "4")
  /\ (_compare_output Demo.world " 4 " "4" "fuzzy" = Ok false
      <-> strip " 4 " <> strip "4").
Proof.
  apply (unrecognized_mode_is_exact Demo.world "fuzzy" " 4 " "4").
  repeat split; discriminate.
Defined.

(** ** Runner: the two ways [run_test] ends *)

Lemma is_Exception_all (e : PyException) : is_Exception e = true.
Proof. destruct e; reflexivity. Qed.

Section RunTest.

Variable w : World.
Variable self : TestRunner.t.
Variable tc : TestCase.

Let cmd := command_line self (input_data tc).

(** The command ran and the comparison returned. *)
Lemma run_test_compared (out : string) (verdict : bool) :
  subprocess_run w cmd = Ok out ->
  _compare_output w (expected_output tc) (strip out) (test_type tc)
  = Ok verdict ->
  run_test w self tc = Ok (mkTestResult tc verdict (strip out) "").
Proof.
  intros Hrun Hcmp. unfold run_test, _execute_command. fold cmd.
  rewrite Hrun. cbn. rewrite Hcmp. reflexivity.
Qed.

(** The command ran and the comparison raised. *)
Lemma run_test_compare_raised (out : string) (e : PyException) :
  subprocess_run w cmd = Ok out ->
  _compare_output w (expected_output tc) (strip out) (test_type tc)
  = Raise e ->
  run_test w self tc = Ok (mkTestResult tc false "" (exn_str e)).
Proof.
  intros Hrun Hcmp. unfold run_test, _execute_command. fold cmd.
  rewrite Hrun. cbn. rewrite Hcmp. cbn. now rewrite is_Exception_all.
Qed.

(** The command did not run to its end. *)
Lemma run_test_execute_raised (e : PyException) :
  subprocess_run w cmd = Raise e ->
  run_test w self tc = Ok (mkTestResult tc false "" (exn_str e)).
Proof.
  intros Hrun. unfold run_test, _execute_command. fold cmd.
  rewrite Hrun. cbn. now rewrite is_Exception_all.
Qed.

(** Every run returns, in one of two shapes: the verdict of the
    comparator on the captured output, without message, or a captured
    exception, with its message and without output. *)
Lemma run_test_cases :
  (exists out verdict,
      subprocess_run w cmd = Ok out
      /\ _compare_output w (expected_output tc) (strip out) (test_type tc)
         = Ok verdict
      /\ run_test w self tc = Ok (mkTestResult tc verdict (strip out) ""))
  \/ (exists e,
         run_test w self tc = Ok (mkTestResult tc false "" (exn_str e))).
Proof.
  destruct (subprocess_run w cmd) as [out|e] eqn:Hrun.
  - destruct (_compare_output w (expected_output tc) (strip out)
                              (test_type tc)) as [verdict|e] eqn:Hcmp.
    + left. exists out, verdict. repeat split; trivial.
      now apply run_test_compared.
    + right. exists e. now apply run_test_compare_raised with (out := out).
  - right. exists e. now apply run_test_execute_raised.
Qed.

End RunTest.




(** C9.  For the result of every run: a non-empty [error_message] comes
    with [passed] false; a failure without message is a comparison that
    answered false on the expected output and the recorded actual output
    under the test's mode; so a failure has one of the two causes, and
    which one shows in the message. *)
Theorem failure_is_explained
        (w : World) (self : TestRunner.t) (tc : TestCase)
        (result : TestResult) :
  run_test w self tc = Ok result ->
  (error_message result <> "" -> passed result = false)
  /\ (passed result = false ->
      error_message result = "" ->
      _compare_output w (expected_output tc) (actual_output result)
                      (test_type tc)
      = Ok false)
  /\ (passed result = false ->
      error_message result <> ""
      \/ _compare_output w (expected_output tc) (actual_output result)
                         (test_type tc)
         = Ok false).
Proof.
  intros Hres.
  destruct (run_test_cases w self tc)
    as [(out & verdict & _ & Hcmp & H) | (e & H)];
    rewrite H in Hres; injection Hres as <-; cbn.
  - repeat split.
    + intros H'. now contradiction H'.
    + intros -> _. exact Hcmp.
    + intros ->. right. exact Hcmp.
  - repeat split.
    + intros _ H'. exfalso. exact (exn_str_nonempty e H').
    + intros _. left. apply exn_str_nonempty.
Qed.

Lemma failure_is_explained_witness :
  let self := TestRunner.init None in
  let tc := mkTestCase "five" "" "4" "5" "exact" "suite.test" 0 [] in
  let result :=
    mkTestResult tc false (quote_s ++ "4" ++ quote_s) "" in
  (error_message result <> "" -> passed result = false)
  /\ (passed result = false ->
      error_message result = "" ->
      _compare_output Demo.world (expected_output tc) (actual_output result)
                      (test_type tc)
      = Ok false)
  /\ (passed result = false ->
      error_message result <> ""
      \/ _compare_output Demo.world (expected_output tc)
                         (actual_output result) (test_type tc)
         = Ok false).
Proof.
  intros self tc result.
  apply (failure_is_explained Demo.world self tc result).
  reflexivity.
Defined.

(** ** Runner: a pattern that is not a regular expression *)

(** C2, as the program has it.  For a test case of type [regex] whose
    expected output is not a regular expression, [run_test] returns a
    result with [passed] false, an empty [actual_output] and a non-empty
    [error_message]; when the command itself ran, the message is the
    text of the exception [re] raised on the pattern.  The failure is
    reported through [except Exception], like a failure of execution,
    not as a comparison that answered false. *)
Theorem invalid_pattern_is_reported
        (w : World) (self : TestRunner.t) (tc : TestCase) :
  test_type tc = "regex" ->
  invalid_pattern w (strip (expected_output tc)) ->
  exists result,
    run_test w self tc = Ok result
    /\ passed result = false
    /\ actual_output result = ""
    /\ error_message result <> ""
    /\ (forall out,
           subprocess_run w (command_line self (input_data tc)) = Ok out ->
           exists e,
             re_search w (strip (expected_output tc)) (strip (strip out))
             = Raise e
             /\ error_message result = exn_str e).
Proof.
  intros Hty Hbad.
  destruct (subprocess_run w (command_line self (input_data tc)))
    as [out|e] eqn:Hrun.
  - destruct (Hbad (strip (strip out))) as [e He].
    assert (Hcmp : _compare_output w (expected_output tc) (strip out)
                                   (test_type tc) = Raise e)
      by (rewrite Hty, compare_regex; exact He).
    eexists. split.
    + exact (run_test_compare_raised w self tc out e Hrun Hcmp).
    + cbn. repeat split; [apply exn_str_nonempty|].
      intros out' Hout'. injection Hout' as <-. exists e. split; trivial.
  - eexists. split.
    + exact (run_test_execute_raised w self tc e Hrun).
    + cbn. repeat split; [apply exn_str_nonempty|].
      intros out' Hout'. discriminate.
Qed.

Lemma invalid_pattern_is_reported_witness :
  let self := TestRunner.init None in
  let tc := mkTestCase "bracket" "" "abc" "[" "regex" "suite.test" 0 [] in
  exists result,
    run_test Demo.world self tc = Ok result
    /\ passed result = false
    /\ actual_output result = ""
    /\ error_message result <> ""
    /\ (forall out,
           subprocess_run Demo.world (command_line self (input_data tc))
           = Ok out ->
           exists e,
             re_search Demo.world (strip (expected_output tc))
                       (strip (strip out))
             = Raise e
             /\ error_message result = exn_str e).
Proof.
  intros self tc.
  apply (invalid_pattern_is_reported Demo.world self tc).
  - reflexivity.
  - intros subject. eexists. reflexivity.
Defined.

(** C2, as the claim words it, fails.  With the command [echo {input}],
    the input [abc] and the expected pattern made of a lone opening
    bracket, the test is of type [regex] and its pattern is refused
    whatever the subject; [run_test] returns the result with [passed]
    false, no output and the message
    [unterminated character set at position 0], which is not a result
    without [error_message]. *)
Lemma invalid_pattern_counterexample :
  let self := TestRunner.init None in
  let tc := mkTestCase "bracket" "" "abc" "[" "regex" "suite.test" 0 [] in
  let result :=
    mkTestResult tc false "" "unterminated character set at position 0" in
  test_type tc = "regex"
  /\ invalid_pattern Demo.world (strip (expected_output tc))
  /\ run_test Demo.world self tc = Ok result
  /\ ~ (passed result = false /\ error_message result = "").
Proof.
  intros self tc result. repeat split.
  - intros subject. eexists. reflexivity.
  - intros [_ H]. discriminate H.
Qed.

(** ** Runner: the command line *)

Section Replace.

Variables (c0 : ascii) (old' new : string).

Let old := String c0 old'.

(** Passing over the rest of a matched occurrence. *)
Lemma replace_go_skip (u s : string) :
  replace_go old new (String.length u) (u ++ s) = replace_go old new 0 s.
Proof. induction u as [|c u IH]; simpl; [reflexivity | exact IH]. Qed.

Lemma replace_go_match (r : string) :
  replace_go old new 0 (old ++ r) = new ++ replace_go old new 0 r.
Proof.
  unfold old at 2. change (String c0 old' ++ r) with (String c0 (old' ++ r)).
  cbn [replace_go].
  change (String c0 (old' ++ r)) with (old ++ r).
  rewrite prefix_append. f_equal.
  change (String.length old - 1) with (String.length old' - 0).
  rewrite Nat.sub_0_r. apply replace_go_skip.
Qed.

Lemma replace_go_no_match (c : ascii) (s : string) :
  String.prefix old (String c s) = false ->
  replace_go old new 0 (String c s)
  = String c (replace_go old new 0 s).
Proof. intros H. cbn [replace_go]. now rewrite H. Qed.

(** A text without occurrence is left as it is. *)
Lemma replace_go_absent (s : string) :
  ~ substring_of old s -> replace_go old new 0 s = s.
Proof.
  induction s as [|c s IH]; intros H; [reflexivity|].
  rewrite replace_go_no_match.
  - f_equal. apply IH. intros (pre & post & ->). apply H.
    exists (String c pre), post. reflexivity.
  - destruct (String.prefix old (String c s)) eqn:E; [|reflexivity].
    exfalso. apply H. apply prefix_inv in E as [r Hr].
    exists "", r. exact Hr.
Qed.

(** A text with one occurrence has that occurrence replaced. *)
Lemma replace_single (pre post : string) :
  (forall a b, pre ++ old ++ post = a ++ old ++ b -> a = pre /\ b = post) ->
  replace old new (pre ++ old ++ post) = pre ++ new ++ post.
Proof.
  unfold replace. induction pre as [|c pre IH]; intros Huniq.
  - change ("" ++ old ++ post) with (old ++ post).
    rewrite replace_go_match. simpl. f_equal.
    apply replace_go_absent. intros (a & b & Hab).
    destruct (Huniq (old ++ a) b) as [Habs _].
    + rewrite Hab, append_assoc. reflexivity.
    + discriminate Habs.
  - change (String c pre ++ old ++ post)
      with (String c (pre ++ old ++ post)).
    rewrite replace_go_no_match.
    + change (String c pre ++ new ++ post)
        with (String c (pre ++ new ++ post)).
      f_equal. apply IH. intros a b Hab.
      destruct (Huniq (String c a) b) as [Ha Hb].
      * change (String c (pre ++ old ++ post) = String c (a ++ old ++ b)).
        now rewrite Hab.
      * injection Ha as Ha. now split.
    + destruct (String.prefix old (String c (pre ++ old ++ post))) eqn:E;
        [|reflexivity].
      exfalso. apply prefix_inv in E as [r Hr].
      destruct (Huniq "" r) as [Habs _]; [exact Hr | discriminate Habs].
Qed.

End Replace.

(** Replacing the double quote by two of them doubles every double
    quote. *)
Lemma replace_quote_doubles (s : string) :
  replace quote_s (quote_s ++ quote_s) s = double_quotes s.
Proof.
  unfold replace. induction s as [|c s IH]; [reflexivity|].
  cbn [replace_go double_quotes]. unfold quote_s at 1.
  rewrite prefix_cons, prefix_empty, andb_true_r, Ascii.eqb_sym.
  destruct (Ascii.eqb c dquote); simpl; now rewrite <- IH.
Qed.

(** X25.  For a template that holds the placeholder [{input}] once, the
    command line the runner builds, and hands to [subprocess.run], is
    the template with the placeholder replaced by the input value in
    which every double quote is doubled, the whole between two double
    quotes. *)
Theorem command_line_quotes_input
        (w : World) (self : TestRunner.t) (input pre post : string) :
  single_placeholder (command_template self) pre post ->
  command_line self input
  = pre ++ (quote_s ++ double_quotes input ++ quote_s) ++ post
  /\ _execute_command w self input
     = (stdout <-
          subprocess_run w
            (pre ++ (quote_s ++ double_quotes input ++ quote_s) ++ post) ;;
        Ok (strip stdout)).
Proof.
  intros [Htpl Huniq].
  assert (Hcmd : command_line self input
                 = pre ++ (quote_s ++ double_quotes input ++ quote_s) ++ post).
  { unfold command_line. rewrite replace_quote_doubles, Htpl.
    apply (replace_single "{"%char "input}"). rewrite <- Htpl. exact Huniq. }
  split; [exact Hcmd|]. unfold _execute_command. now rewrite Hcmd.
Qed.

(** A text in which the placeholder occurs at one position only holds it
    once. *)
Lemma occurrences_head (sub s : string) (i : nat) :
  String.prefix sub s = true -> In i (occurrences sub s i).
Proof.
  intros H. destruct s; cbn [occurrences]; rewrite H; left; reflexivity.
Qed.

Lemma occurrences_complete (sub a b : string) (i : nat) :
  In (i + String.length a) (occurrences sub (a ++ sub ++ b) i).
Proof.
  revert i. induction a as [|c a IH]; intros i.
  - change ("" ++ sub ++ b) with (sub ++ b).
    replace (i + String.length "") with i by (simpl; lia).
    apply occurrences_head, prefix_append.
  - change (String c a ++ sub ++ b) with (String c (a ++ sub ++ b)).
    cbn [occurrences]. apply in_or_app. right.
    replace (i + String.length (String c a)) with (S i + String.length a)
      by (simpl; lia).
    apply IH.
Qed.

Lemma append_same_length (a a' r r' : string) :
  a ++ r = a' ++ r' -> String.length a = String.length a' ->
  a = a' /\ r = r'.
Proof.
  revert a'. induction a as [|c a IH]; intros [|c' a'] H Hlen;
    try discriminate Hlen.
  - now split.
  - simpl in H, Hlen. injection H as -> H. injection Hlen as Hlen.
    destruct (IH a' H Hlen) as [-> ->]. now split.
Qed.

Lemma single_placeholder_by_count (pre post : string) :
  occurrences "{input}" (pre ++ "{input}" ++ post) 0 = [String.length pre] ->
  single_placeholder (pre ++ "{input}" ++ post) pre post.
Proof.
  intros Hocc. split; [reflexivity|]. intros a b Hab.
  pose proof (occurrences_complete "{input}" a b 0) as Hin.
  rewrite <- Hab, Hocc in Hin. simpl in Hin. destruct Hin as [Hlen|[]].
  symmetry in Hab.
  destruct (append_same_length _ _ _ _ Hab (eq_sym Hlen)) as [-> Hb].
  split; [reflexivity|].
  change ("{input}" ++ b) with (String "{" (String "i" (String "n"
    (String "p" (String "u" (String "t" (String "}" b))))))) in Hb.
  change ("{input}" ++ post) with (String "{" (String "i" (String "n"
    (String "p" (String "u" (String "t" (String "}" post))))))) in Hb.
  now injection Hb.
Qed.

Lemma command_line_quotes_input_witness :
  let self := TestRunner.init None in
  let input := "say " ++ quote_s ++ "hi" ++ quote_s in
  command_line self input
  = "echo " ++ (quote_s ++ double_quotes input ++ quote_s) ++ ""
  /\ _execute_command Demo.world self input
     = (stdout <-
          subprocess_run Demo.world
            ("echo " ++ (quote_s ++ double_quotes input ++ quote_s) ++ "") ;;
        Ok (strip stdout)).
Proof.
  intros self input.
  apply (command_line_quotes_input Demo.world self input "echo " "").
  apply (single_placeholder_by_count "echo " ""). reflexivity.
Defined.

(** C8 (the program departs from the claim).  The claim: the command
    line is the template with the placeholder replaced by the input, its
    double quotes doubled and the whole between double quotes, which
    keeps the value a single argument of the shell.  The program builds
    that text whatever the shell of the host; [/bin/sh], which runs the
    line on a POSIX host, does not read a doubled quote as a quote and
    reads a backslash before a quote as one.  With the template
    [echo {input}] and the input made of backslash, quote,
    [ ; echo INJECTED ; ], backslash, quote, the line is read as three
    commands: [echo] with a quote as argument, [echo INJECTED], and a
    command named by a quote; the output of the test holds the line
    [INJECTED].  An input of ordinary characters stays one argument. *)
Theorem quoting_fails_under_sh :
  command_line (TestRunner.init None) Demo.injection
  = "echo " ++ quote_s ++ "\" ++ quote_s ++ quote_s
    ++ " ; echo INJECTED ; \" ++ quote_s ++ quote_s ++ quote_s
  /\ Sh.read (command_line (TestRunner.init None) Demo.injection)
     = Some [["echo"; quote_s]; ["echo"; "INJECTED"]; [quote_s]]
  /\ Demo.sh (command_line (TestRunner.init None) Demo.injection)
     = Ok (mkCompleted 127 (quote_s ++ newline ++ "INJECTED" ++ newline)
             ("/bin/sh: 1: " ++ quote_s ++ ": not found" ++ newline))
  /\ _execute_command Demo.posix_world (TestRunner.init None)
                       Demo.injection
     = Ok (quote_s ++ newline ++ "INJECTED")
  /\ Sh.read (command_line (TestRunner.init None) "2 + 2")
     = Some [["echo"; "2 + 2"]].
Proof.
  refine (conj _ (conj _ (conj _ (conj _ _)))); reflexivity.
Qed.

(** ** Parser: the line-by-line state machine *)

(** The section read as its name line, the fold of [step] over the other
    lines, and the flush that ends it. *)
Lemma parse_test_section_unfold (section file_path line0 : string)
      (rest : list string) :
  split newline (strip section) = line0 :: rest ->
  let f := flush (fold_left step rest initial) in
  _parse_test_section section file_path
  = Some (mkTestCase (strip line0) (v_description f) (v_input_data f)
                     (v_expected_output f) (v_test_type f) file_path 0
                     (v_tags f)).
Proof.
  intros H. unfold _parse_test_section. rewrite H. unfold flush.
  destruct (current_block (fold_left step rest initial)) as [[ | | ]|];
    reflexivity.
Qed.

Section Step.

Variable f : Frame.
Variable line : string.

(** What each keyword line does, keyword by keyword. *)
Lemma step_description (r : string) :
  strip line = "DESCRIPTION:" ++ r ->
  step f line = set_block (flush f) (Some description_block) (seed r).
Proof.
  intros H. unfold step, flush, seed. rewrite H.
  replace (startswith "DESCRIPTION:" ("DESCRIPTION:" ++ r)) with true
    by (symmetry; apply prefix_append).
  change (drop 12 ("DESCRIPTION:" ++ r)) with r.
  destruct (current_block f) as [[ | | ]|]; destruct (strip r); reflexivity.
Qed.

Lemma step_input (r : string) :
  strip line = "INPUT:" ++ r ->
  step f line = set_block (flush f) (Some input_block) (seed r).
Proof.
  intros H. unfold step, flush, seed. rewrite H.
  change (startswith "DESCRIPTION:" ("INPUT:" ++ r)) with false.
  replace (startswith "INPUT:" ("INPUT:" ++ r)) with true
    by (symmetry; apply prefix_append).
  change (drop 6 ("INPUT:" ++ r)) with r.
  destruct (current_block f) as [[ | | ]|]; destruct (strip r); reflexivity.
Qed.

Lemma step_expected (r : string) :
  strip line = "EXPECTED:" ++ r ->
  step f line = set_block (flush f) (Some expected_block) (seed r).
Proof.
  intros H. unfold step, flush, seed. rewrite H.
  change (startswith "DESCRIPTION:" ("EXPECTED:" ++ r)) with false.
  change (startswith "INPUT:" ("EXPECTED:" ++ r)) with false.
  replace (startswith "EXPECTED:" ("EXPECTED:" ++ r)) with true
    by (symmetry; apply prefix_append).
  change (drop 9 ("EXPECTED:" ++ r)) with r.
  destruct (current_block f) as [[ | | ]|]; destruct (strip r); reflexivity.
Qed.

Lemma step_tags (r : string) :
  strip line = "TAGS:" ++ r ->
  step f line = set_tags f (map strip (split "," r)).
Proof.
  intros H. unfold step. rewrite H.
  change (startswith "DESCRIPTION:" ("TAGS:" ++ r)) with false.
  change (startswith "INPUT:" ("TAGS:" ++ r)) with false.
  change (startswith "EXPECTED:" ("TAGS:" ++ r)) with false.
  change (startswith "TYPE:" ("TAGS:" ++ r)) with false.
  replace (startswith "TAGS:" ("TAGS:" ++ r)) with true
    by (symmetry; apply prefix_append).
  reflexivity.
Qed.

(** A line that is not a [TAGS:] line leaves the tags as they are. *)
Lemma step_keeps_tags :
  startswith "TAGS:" (strip line) = false ->
  v_tags (step f line) = v_tags f.
Proof.
  intros H. unfold step. rewrite H.
  repeat match goal with
         | |- context [if ?c then _ else _] => destruct c
         end;
    destruct (current_block f) as [[ | | ]|]; reflexivity.
Qed.

End Step.

Lemma flush_keeps_tags (f : Frame) : v_tags (flush f) = v_tags f.
Proof. unfold flush. destruct (current_block f) as [[ | | ]|]; reflexivity. Qed.

Lemma fold_step_keeps_tags (lines : list string) (f : Frame) :
  Forall (fun l => startswith "TAGS:" (strip l) = false) lines ->
  v_tags (fold_left step lines f) = v_tags f.
Proof.
  intros H. revert f. induction H as [|l lines Hl _ IH]; intros f.
  - reflexivity.
  - simpl. rewrite IH. now apply step_keeps_tags.
Qed.



(** C10.  In a section, the last line that begins with [TAGS:] decides
    the tags: they are the pieces of the rest of that line between
    commas, each trimmed, empty pieces included.  When nothing follows
    the keyword the tags are the one-element list holding the empty
    string, not the empty list; for [TAGS: a,,b] they are [a], the empty
    string and [b]. *)
Theorem empty_tags_are_kept
        (section file_path name_line : string) (before after : list string)
        (line : string) :
  split newline (strip section) = name_line :: (before ++ line :: after)%list ->
  startswith "TAGS:" (strip line) = true ->
  Forall (fun l => startswith "TAGS:" (strip l) = false) after ->
  exists tc,
    _parse_test_section section file_path = Some tc
    /\ tags tc = map strip (split "," (drop 5 (strip line)))
    /\ (strip line = "TAGS:" -> tags tc = [""])
    /\ (strip line = "TAGS: a,,b" -> tags tc = ["a"; ""; "b"]).
Proof.
  intros Hsplit Htags Hafter.
  rewrite (parse_test_section_unfold section file_path _ _ Hsplit).
  eexists. split; [reflexivity|]. cbn [tags].
  assert (Hv : v_tags (flush (fold_left step (before ++ line :: after)
                                        initial))
               = map strip (split "," (drop 5 (strip line)))).
  { rewrite flush_keeps_tags, fold_left_app. cbn [fold_left].
    rewrite (fold_step_keeps_tags after _ Hafter).
    apply prefix_inv in Htags as [r Hr].
    rewrite (step_tags _ line r Hr), Hr. reflexivity. }
  rewrite Hv. split; [reflexivity|].
  split; intros ->; reflexivity.
Qed.

Lemma empty_tags_are_kept_witness :
  let section :=
    " Addition" ++ newline ++ "TYPE: exact" ++ newline ++ "TAGS:" ++ newline
    ++ "INPUT: 2 + 2" ++ newline ++ "EXPECTED: 4" ++ newline in
  exists tc,
    _parse_test_section section "suite.test" = Some tc
    /\ tags tc = map strip (split "," (drop 5 (strip "TAGS:")))
    /\ (strip "TAGS:" = "TAGS:" -> tags tc = [""])
    /\ (strip "TAGS:" = "TAGS: a,,b" -> tags tc = ["a"; ""; "b"]).
Proof.
  intros section.
  apply (empty_tags_are_kept section "suite.test" "Addition"
                             ["TYPE: exact"] ["INPUT: 2 + 2"; "EXPECTED: 4"]
                             "TAGS:").
  - reflexivity.
  - reflexivity.
  - repeat constructor.
Defined.

(** ** Comparison of decoded values *)

Section ValueFacts.

Variable F : Type.
Variable feq : F -> F -> bool.
Variable fis : F -> F -> bool.
Variable ifeq : Z -> F -> bool.

Notation "v == w" := (py_eq feq fis ifeq v w) (at level 70).
Notation "v =~ w" := (deep_equal feq ifeq v w) (at level 70).

(** Induction on a value with the hypothesis on every item of a list
    and on every value of a dict. *)
Section Induction.

Variable P : pyval F -> Prop.
Hypothesis HNone : P PNone.
Hypothesis HBool : forall b, P (PBool b).
Hypothesis HInt : forall z, P (PInt z).
Hypothesis HFloat : forall x, P (PFloat x).
Hypothesis HStr : forall s, P (PStr s).
Hypothesis HList : forall l, Forall P l -> P (PList l).
Hypothesis HDict :
  forall d, Forall (fun kv => P (snd kv)) d -> P (PDict d).

Fixpoint pyval_induction (v : pyval F) : P v :=
  match v with
  | PNone => HNone
  | PBool b => HBool b
  | PInt z => HInt z
  | PFloat x => HFloat x
  | PStr s => HStr s
  | PList l =>
      HList l
        ((fix items (l : list (pyval F)) : Forall P l :=
            match l with
            | [] => Forall_nil P
            | x :: l' => Forall_cons x (pyval_induction x) (items l')
            end) l)
  | PDict d =>
      HDict d
        ((fix items (d : list (string * pyval F))
          : Forall (fun kv => P (snd kv)) d :=
            match d with
            | [] => Forall_nil _
            | kv :: d' =>
                Forall_cons kv (pyval_induction (snd kv)) (items d')
            end) d)
  end.

End Induction.

(** The comparison of two lists, item by item. *)
Lemma deep_equal_list (l m : list (pyval F)) :
  (PList l =~ PList m) = true
  <-> Forall2 (fun x y => (x =~ y) = true) l m.
Proof.
  revert m. induction l as [|x l IH]; intros [|y m]; simpl.
  - split; [constructor | reflexivity].
  - split; [discriminate | inversion 1].
  - split; [discriminate | inversion 1].
  - rewrite andb_true_iff. split.
    + intros [Hx Hl]. constructor; [exact Hx|]. now apply IH.
    + inversion 1; subst. split; [assumption|]. now apply IH.
Qed.

(** The comparison of two dicts: as many keys, and every item of the
    left one found equal in the right one. *)
Lemma deep_equal_dict (d e : list (string * pyval F)) :
  (PDict d =~ PDict e)
  = Nat.eqb (List.length d) (List.length e)
    && forallb (fun kv => match dict_get (fst kv) e with
                          | Some y => snd kv =~ y
                          | None => false
                          end) d.
Proof.
  cbn [deep_equal]. f_equal.
  induction d as [|[k x] d IH]; [reflexivity|].
  cbn [forallb fst snd]. now rewrite <- IH.
Qed.

Lemma dict_get_map {A B : Type} (g : A -> B) (k : string)
      (d : list (string * A)) :
  dict_get k (map (fun kv => (fst kv, g (snd kv))) d)
  = option_map g (dict_get k d).
Proof.
  induction d as [|[k' x] d IH]; [reflexivity|].
  cbn [map dict_get fst snd]. destruct (String.eqb k k'); [reflexivity|].
  exact IH.
Qed.

Lemma dict_get_in {A : Type} (k : string) (x : A) (d : list (string * A)) :
  NoDup (map fst d) -> In (k, x) d -> dict_get k d = Some x.
Proof.
  induction d as [|[k' x'] d IH]; intros Hnd Hin; [contradiction|].
  cbn [map fst] in Hnd. inversion Hnd as [|? ? Hnotin Hnd']; subst.
  cbn [dict_get]. destruct Hin as [Heq|Hin].
  - injection Heq as -> ->. now rewrite String.eqb_refl.
  - destruct (String.eqb_spec k k') as [->|Hne].
    + exfalso. apply Hnotin. apply (in_map fst) in Hin. exact Hin.
    + now apply IH.
Qed.

(** The order of the keys does not matter. *)
Lemma deep_equal_key_order (d e : list (string * pyval F)) :
  NoDup (map fst d) ->
  Permutation d e ->
  Forall (fun kv => (snd kv =~ snd kv) = true) d ->
  (PDict d =~ PDict e) = true.
Proof.
  intros Hnd Hperm Hrefl. rewrite deep_equal_dict. apply andb_true_iff.
  split.
  - apply Nat.eqb_eq. now apply Permutation_length.
  - apply forallb_forall. intros [k x] Hin. cbn [fst snd].
    assert (Hnd' : NoDup (map fst e))
      by (eapply Permutation_NoDup; [apply Permutation_map, Hperm | exact Hnd]).
    rewrite (dict_get_in k x e Hnd' (Permutation_in _ Hperm Hin)).
    rewrite Forall_forall in Hrefl. exact (Hrefl (k, x) Hin).
Qed.

(** What a list asks of two items, and a dict of two values, is deep
    equality once every boolean is read as the integer 1 or 0, a float
    being equal also to the same float object. *)
Lemma item_eq_deep_equal (v w : pyval F) :
  same_float fis v w || (v == w)
  = deep_equal (fun x y => fis x y || feq x y) ifeq
               (bools_as_ints v) (bools_as_ints w).
Proof.
  revert w. induction v as [ |a|z|x|s|l IH|d IH] using pyval_induction;
    intros w.
  - destruct w; reflexivity.
  - destruct w as [ |b| | | | | ]; try reflexivity.
    destruct a, b; reflexivity.
  - destruct w; reflexivity.
  - destruct w; reflexivity.
  - destruct w; reflexivity.
  - destruct w as [ | | | | |m| ]; try reflexivity.
    cbn [bools_as_ints same_float orb]. revert m.
    induction IH as [|x l Hx _ IHl]; intros [|y m]; try reflexivity.
    specialize (IHl m). cbn [py_eq deep_equal map] in *.
    now rewrite Hx, IHl.
  - destruct w as [ | | | | | |e]; try reflexivity.
    cbn [bools_as_ints py_eq deep_equal same_float orb].
    rewrite !length_map. f_equal.
    induction IH as [|[k x] d Hx _ IHd]; [reflexivity|].
    cbn [map fst snd]. rewrite dict_get_map, <- IHd.
    destruct (dict_get k e) as [y|]; [|reflexivity].
    cbn [option_map snd] in *. now rewrite Hx.
Qed.

(** What [==] computes on two decoded values. *)
Lemma py_eq_json_equal (v w : pyval F) :
  (v == w) = json_equal feq fis ifeq v w.
Proof.
  unfold json_equal.
  destruct v, w; try reflexivity; rewrite <- item_eq_deep_equal; reflexivity.
Qed.

End ValueFacts.

(** ** Comparator: mode [json] *)

Lemma compare_json (w : World) (expected actual : string) :
  _compare_output w expected actual "json"
  = try_except
      (expected_json <- json_loads w (strip expected) ;;
       actual_json <- json_loads w (strip actual) ;;
       Ok (py_eq (float_eq w) (float_is w) (int_float_eq w)
                 expected_json actual_json))
      is_JSONDecodeError
      (fun _ => Ok false).
Proof. reflexivity. Qed.

(** C5, as the program has it.  In mode [json] the comparator answers
    true exactly when both trimmed strings decode and the decoded values
    are equal as Python's [==] has it: deeply equal once the booleans
    are read as the numbers 1 and 0, a float inside an array or a map
    being equal also to the very same float object ([json.loads] gives
    one object for every [NaN]: an array holding [NaN] equals its like,
    [NaN] alone does not).  When either side raises
    [json.JSONDecodeError] the comparator answers false; any other
    exception of the decoder (the [ValueError] for an integer of more
    than 4300 digits) goes on to the caller.  Deep equality ignores the
    order of the keys of a map and follows the order of the items of an
    array; the two documents of the example, with the keys [a] and [b]
    in either order, compare equal, and the arrays [1,2] and [2,1] do
    not. *)
Theorem json_mode_compares_decoded_values
        (w : World) (expected actual : string) :
  (_compare_output w expected actual "json" = Ok true
   <-> exists v v',
         json_loads w (strip expected) = Ok v
         /\ json_loads w (strip actual) = Ok v'
         /\ json_equal (float_eq w) (float_is w) (int_float_eq w) v v'
            = true)
  /\ (forall err,
         json_loads w (strip expected) = Raise err ->
         _compare_output w expected actual "json"
         = if is_JSONDecodeError err then Ok false else Raise err)
  /\ (forall v err,
         json_loads w (strip expected) = Ok v ->
         json_loads w (strip actual) = Raise err ->
         _compare_output w expected actual "json"
         = if is_JSONDecodeError err then Ok false else Raise err)
  /\ (forall (feq : pyfloat w -> pyfloat w -> bool)
             (d e : list (string * pyval (pyfloat w))),
         NoDup (map fst d) ->
         Permutation d e ->
         Forall (fun kv => deep_equal feq (int_float_eq w) (snd kv) (snd kv)
                           = true) d ->
         deep_equal feq (int_float_eq w) (PDict d) (PDict e) = true)
  /\ (forall (feq : pyfloat w -> pyfloat w -> bool)
             (l m : list (pyval (pyfloat w))),
         deep_equal feq (int_float_eq w) (PList l) (PList m) = true
         <-> Forall2 (fun x y => deep_equal feq (int_float_eq w) x y = true)
                     l m)
  /\ _compare_output Demo.world Demo.doc_ab Demo.doc_ba "json" = Ok true
  /\ _compare_output Demo.world "[1,2]" "[2,1]" "json" = Ok false
  /\ _compare_output Demo.world_with_constants "[NaN]" "[NaN]" "json"
     = Ok true
  /\ _compare_output Demo.world_with_constants "NaN" "NaN" "json" = Ok false.
Proof.
  rewrite compare_json.
  refine (conj _ (conj _ (conj _ (conj _ (conj _ (conj _ (conj _
            (conj _ _)))))))).
  - destruct (json_loads w (strip expected)) as [v|err].
    + destruct (json_loads w (strip actual)) as [v'|err]; cbn.
      * rewrite py_eq_json_equal. split.
        -- intros H. exists v, v'. repeat split. congruence.
        -- intros (x & x' & Hx & Hx' & H).
           injection Hx as <-. injection Hx' as <-. now rewrite H.
      * split.
        -- destruct (is_JSONDecodeError err); intros H; discriminate H.
        -- intros (x & x' & _ & Hx' & _). discriminate Hx'.
    + cbn. split.
      * destruct (is_JSONDecodeError err); intros H; discriminate H.
      * intros (x & x' & Hx & _). discriminate Hx.
  - intros err ->. reflexivity.
  - intros v err -> ->. reflexivity.
  - intros feq d e. apply deep_equal_key_order.
  - intros feq l m. apply deep_equal_list.
  - reflexivity.
  - reflexivity.
  - reflexivity.
  - reflexivity.
Qed.

(** C5, as the claim words it, fails, in three ways.  With the expected
    output [1] and the actual output [true], both sides decode, to the
    integer 1 and to the boolean [True]; the comparator answers true,
    yet a number and a boolean are not structurally equal.  With [NaN]
    on both sides the comparator answers false, and with an array
    holding [NaN] on both sides it answers true: no deep equality of
    the decoded values gives both answers.  With an integer of 4301
    digits as expected output, the decoder fails and the comparator
    raises instead of answering false. *)
Lemma json_bool_equals_number_counterexample :
  (_compare_output Demo.world "1" "true" "json" = Ok true
   /\ json_loads Demo.world (strip "1") = Ok (PInt 1)
   /\ json_loads Demo.world (strip "true") = Ok (PBool true)
   /\ ~ (exists v v',
            json_loads Demo.world (strip "1") = Ok v
            /\ json_loads Demo.world (strip "true") = Ok v'
            /\ deep_equal (float_eq Demo.world) (int_float_eq Demo.world)
                          v v'
               = true))
  /\ (_compare_output Demo.world_with_constants "NaN" "NaN" "json" = Ok false
      /\ _compare_output Demo.world_with_constants "[NaN]" "[NaN]" "json"
         = Ok true
      /\ json_loads Demo.world_with_constants (strip "NaN")
         = Ok (PFloat Demo.NaN)
      /\ json_loads Demo.world_with_constants (strip "[NaN]")
         = Ok (PList [PFloat Demo.NaN]))
  /\ _compare_output Demo.world Demo.long_integer "1" "json"
     = Raise (ValueError_int_digits 4301).
Proof.
  refine (conj (conj _ (conj _ (conj _ _))) (conj (conj _ (conj _ (conj _ _)))
                                                  _)).
  - reflexivity.
  - reflexivity.
  - reflexivity.
  - intros (v & v' & Hv & Hv' & H).
    change (json_loads Demo.world (strip "1")) with
      (@Ok (pyval Empty_set) (PInt 1)) in Hv.
    change (json_loads Demo.world (strip "true")) with
      (@Ok (pyval Empty_set) (PBool true)) in Hv'.
    injection Hv as <-. injection Hv' as <-. discriminate H.
  - reflexivity.
  - reflexivity.
  - reflexivity.
  - reflexivity.
  - vm_compute. reflexivity.
Qed.

(** * Further properties *)

(** ** Trimming and lower-casing *)

Lemma lstrip_fixed (s : string) :
  match s with "" => True | String c _ => isspace c = false end ->
  lstrip s = s.
Proof. destruct s as [|c s]; [reflexivity|]. simpl. now intros ->. Qed.

Lemma lstrip_head (s : string) :
  match lstrip s with "" => True | String c _ => isspace c = false end.
Proof.
  induction s as [|c s IH]; [exact I|]. simpl.
  destruct (isspace c) eqn:E; [exact IH | exact E].
Qed.

Lemma rstrip_head (s : string) :
  match s with "" => True | String c _ => isspace c = false end ->
  match rstrip s with "" => True | String c _ => isspace c = false end.
Proof.
  destruct s as [|c s]; [trivial|]. intros H. simpl.
  destruct (rstrip s); [now rewrite H | exact H].
Qed.

Lemma rstrip_idempotent (s : string) : rstrip (rstrip s) = rstrip s.
Proof.
  induction s as [|c s IH]; [reflexivity|]. simpl.
  destruct (rstrip s) as [|d r] eqn:E.
  - destruct (isspace c) eqn:Ec; [reflexivity|]. simpl. now rewrite Ec.
  - change (rstrip (String c (String d r)))
      with (match rstrip (String d r) with
            | "" => if isspace c then "" else String c ""
            | String a b => String c (String a b)
            end).
    now rewrite IH.
Qed.

Lemma strip_idempotent (s : string) : strip (strip s) = strip s.
Proof.
  unfold strip.
  rewrite (lstrip_fixed (rstrip (lstrip s)))
    by (apply rstrip_head, lstrip_head).
  apply rstrip_idempotent.
Qed.

Lemma lower_char_space (c : ascii) : isspace (lower_char c) = isspace c.
Proof.
  destruct c as [[] [] [] [] [] [] [] []]; vm_compute; reflexivity.
Qed.

Lemma lower_char_idempotent (c : ascii) :
  lower_char (lower_char c) = lower_char c.
Proof.
  destruct c as [[] [] [] [] [] [] [] []]; vm_compute; reflexivity.
Qed.

Lemma lower_idempotent (s : string) : lower (lower s) = lower s.
Proof.
  induction s as [|c s IH]; [reflexivity|]. simpl.
  now rewrite lower_char_idempotent, IH.
Qed.

Lemma lstrip_lower (s : string) : lstrip (lower s) = lower (lstrip s).
Proof.
  induction s as [|c s IH]; [reflexivity|]. simpl.
  rewrite lower_char_space. destruct (isspace c); [exact IH | reflexivity].
Qed.

Lemma rstrip_lower (s : string) : rstrip (lower s) = lower (rstrip s).
Proof.
  induction s as [|c s IH]; [reflexivity|]. simpl.
  rewrite IH, lower_char_space.
  destruct (rstrip s); simpl; [destruct (isspace c)|]; reflexivity.
Qed.

Lemma strip_lower (s : string) : strip (lower s) = lower (strip s).
Proof. unfold strip. now rewrite lstrip_lower, rstrip_lower. Qed.

Lemma length_append (a b : string) :
  String.length (a ++ b) = String.length a + String.length b.
Proof. induction a as [|c a IH]; simpl; [reflexivity | now rewrite IH]. Qed.

Lemma append_cancel_r (a b r : string) : a ++ r = b ++ r -> a = b.
Proof.
  intros H. apply (append_same_length a b r r H).
  apply (f_equal String.length) in H. rewrite !length_append in H. lia.
Qed.

Lemma append_cancel_l (p a b : string) : p ++ a = p ++ b -> a = b.
Proof.
  induction p as [|c p IH]; simpl; intros H; [exact H|].
  injection H as H. now apply IH.
Qed.

(** ** Parser: what a line does to the frame *)

Lemma step_opens (f : Frame) (line : string) (b : Block) :
  startswith (keyword b) (strip line) = true ->
  step f line
  = set_block (flush f) (Some b)
              (seed (drop (String.length (keyword b)) (strip line))).
Proof.
  intros H. apply prefix_inv in H as [r Hr]. rewrite Hr.
  destruct b; cbn [keyword] in *.
  - change (drop _ ("DESCRIPTION:" ++ r)) with r. now apply step_description.
  - change (drop _ ("INPUT:" ++ r)) with r. now apply step_input.
  - change (drop _ ("EXPECTED:" ++ r)) with r. now apply step_expected.
Qed.

Lemma opens_block_cases (line : string) :
  opens_block line = true ->
  exists b, startswith (keyword b) (strip line) = true.
Proof.
  unfold opens_block. rewrite !orb_true_iff. intros [[H|H]|H].
  - now exists description_block.
  - now exists input_block.
  - now exists expected_block.
Qed.

Lemma opens_block_keyword (line : string) (b : Block) :
  opens_block line = false -> startswith (keyword b) (strip line) = false.
Proof.
  unfold opens_block. rewrite !orb_false_iff. intros [[H1 H2] H3].
  now destruct b.
Qed.

(** A line that opens no block, read by the last branches of the
    loop. *)
Lemma step_plain (f : Frame) (line : string) :
  opens_block line = false ->
  step f line
  = if startswith "TYPE:" (strip line) then
      set_test_type f (lower (strip (drop 5 (strip line))))
    else if startswith "TAGS:" (strip line) then
      set_tags f (map strip (split "," (drop 5 (strip line))))
    else if truthy (strip line) then
      match current_block f with
      | Some _ =>
          set_block f (current_block f) (block_content f ++ [strip line])
      | None => f
      end
    else f.
Proof.
  unfold opens_block. rewrite !orb_false_iff. intros [[H1 H2] H3].
  unfold step. now rewrite H1, H2, H3.
Qed.

Lemma content_lines_one (line : string) :
  content_lines [line]
  = if truthy (strip line) && negb (sets_attribute line)
    then [strip line] else [].
Proof.
  unfold content_lines. cbn [filter].
  destruct (truthy (strip line) && negb (sets_attribute line)); reflexivity.
Qed.

Lemma content_lines_cons (line : string) (body : list string) :
  content_lines (line :: body)
  = (content_lines [line] ++ content_lines body)%list.
Proof.
  unfold content_lines. cbn [filter].
  destruct (truthy (strip line) && negb (sets_attribute line)); reflexivity.
Qed.

(** Such a line keeps the state and the three text fields, and adds
    itself to the buffer of an open block when it is content. *)
Lemma step_plain_effect (f : Frame) (line : string) :
  opens_block line = false ->
  current_block (step f line) = current_block f
  /\ (forall b, field b (step f line) = field b f)
  /\ block_content (step f line)
     = match current_block f with
       | Some _ => (block_content f ++ content_lines [line])%list
       | None => block_content f
       end.
Proof.
  intros H. rewrite (step_plain f line H), content_lines_one.
  unfold sets_attribute.
  destruct (startswith "TYPE:" (strip line)) eqn:Ety;
    [|destruct (startswith "TAGS:" (strip line)) eqn:Etg];
    cbn [orb negb]; rewrite ?andb_false_r, ?andb_true_r;
    [ | |destruct (truthy (strip line))];
    destruct (current_block f) eqn:Ecb; cbn; rewrite ?Ecb, ?app_nil_r;
    (refine (conj _ (conj _ _)); [reflexivity | now intros [] | reflexivity]).
Qed.

Lemma flush_field (f : Frame) (b : Block) :
  field b (flush f)
  = match current_block f with
    | Some b' =>
        if match b, b' with
           | description_block, description_block => true
           | input_block, input_block => true
           | expected_block, expected_block => true
           | _, _ => false
           end
        then strip (join newline (block_content f))
        else field b f
    | None => field b f
    end.
Proof.
  unfold flush. destruct (current_block f) as [[ | | ]|]; destruct b;
    reflexivity.
Qed.

Lemma flush_field_own (f : Frame) (b : Block) :
  current_block f = Some b ->
  field b (flush f) = strip (join newline (block_content f)).
Proof. intros H. rewrite flush_field, H. now destruct b. Qed.

Lemma flush_field_other (f : Frame) (b : Block) :
  current_block f <> Some b -> field b (flush f) = field b f.
Proof.
  intros H. rewrite flush_field.
  destruct (current_block f) as [b'|]; [|reflexivity].
  destruct b, b'; try reflexivity; now contradiction H.
Qed.

(** While another block is open and no line opens the block [b], the
    field of [b] stays as it is, to the end of the section. *)
Lemma fold_other_block (rest : list string) (f : Frame) (b : Block) :
  current_block f <> Some b ->
  Forall (fun l => startswith (keyword b) (strip l) = false) rest ->
  field b (flush (fold_left step rest f)) = field b f.
Proof.
  intros Hcb Hrest. revert f Hcb.
  induction Hrest as [|l rest Hl _ IH]; intros f Hcb.
  - now apply flush_field_other.
  - cbn [fold_left]. destruct (opens_block l) eqn:E.
    + destruct (opens_block_cases l E) as [b' Hb'].
      rewrite (step_opens f l b' Hb'). rewrite IH.
      * destruct b; apply (flush_field_other f _ Hcb).
      * cbn. intros Heq. injection Heq as ->. congruence.
    + destruct (step_plain_effect f l E) as (Hc & Hf & _).
      rewrite IH; [apply Hf | now rewrite Hc].
Qed.

(** With the block [b] open, and no later line opening [b] again, the
    section ends with the field of [b] holding the buffer and the
    content lines of the block. *)
Lemma fold_open_block (rest : list string) (f : Frame) (b : Block) :
  current_block f = Some b ->
  Forall (fun l => startswith (keyword b) (strip l) = false) rest ->
  field b (flush (fold_left step rest f))
  = strip (join newline
                (block_content f ++ content_lines (block_body rest))).
Proof.
  intros Hcb Hrest. revert f Hcb.
  induction Hrest as [|l rest Hl Hrest IH]; intros f Hcb.
  - cbn. rewrite app_nil_r. now apply flush_field_own.
  - cbn [fold_left block_body]. destruct (opens_block l) eqn:E.
    + destruct (opens_block_cases l E) as [b' Hb'].
      rewrite (step_opens f l b' Hb'). rewrite fold_other_block.
      * cbn. rewrite app_nil_r.
        destruct b; apply (flush_field_own f _ Hcb).
      * cbn. intros Heq. injection Heq as ->. congruence.
      * exact Hrest.
    + destruct (step_plain_effect f l E) as (Hc & _ & Hbc).
      rewrite IH by now rewrite Hc. rewrite Hbc, Hcb.
      now rewrite (content_lines_cons l (block_body rest)), app_assoc.
Qed.

(** ** Parser: blocks, attributes and free text *)

(** X1.  The field of a block is decided by the last line that opens
    it: it holds the text after the keyword on that line and the lines
    that follow up to the next line opening a block, blank lines and
    [TYPE:]/[TAGS:] lines left out, each trimmed, all joined with
    newline and trimmed as a whole. *)
Theorem block_collects_its_lines
        (section file_path name_line line : string)
        (before rest : list string) (b : Block) :
  split newline (strip section) = name_line :: (before ++ line :: rest)%list ->
  startswith (keyword b) (strip line) = true ->
  Forall (fun l => startswith (keyword b) (strip l) = false) rest ->
  exists tc,
    _parse_test_section section file_path = Some tc
    /\ case_field b tc
       = strip (join newline
                     (seed (drop (String.length (keyword b)) (strip line))
                      ++ content_lines (block_body rest))).
Proof.
  intros Hsplit Hopen Hrest.
  rewrite (parse_test_section_unfold section file_path _ _ Hsplit).
  eexists. split; [reflexivity|].
  rewrite fold_left_app. cbn [fold_left].
  rewrite (step_opens _ line b Hopen).
  pose proof (fold_open_block rest
                (set_block (flush (fold_left step before initial)) (Some b)
                   (seed (drop (String.length (keyword b)) (strip line))))
                b eq_refl Hrest) as H.
  cbn [block_content set_block] in H. rewrite <- H.
  destruct b; reflexivity.
Qed.

Lemma block_collects_its_lines_witness :
  let section :=
    " Greeting" ++ newline ++ "INPUT: old" ++ newline
    ++ "INPUT: print(1)" ++ newline ++ newline ++ "  print(2)  " ++ newline
    ++ "TYPE: exact" ++ newline ++ "EXPECTED:" ++ newline ++ "1" in
  exists tc,
    _parse_test_section section "suite.test" = Some tc
    /\ case_field input_block tc
       = strip (join newline
                     (seed (drop (String.length (keyword input_block))
                                 (strip "INPUT: print(1)"))
                      ++ content_lines
                           (block_body [""; "  print(2)  "; "TYPE: exact";
                                        "EXPECTED:"; "1"]))).
Proof.
  intros section.
  apply (block_collects_its_lines section "suite.test" "Greeting"
           "INPUT: print(1)" ["INPUT: old"]
           [""; "  print(2)  "; "TYPE: exact"; "EXPECTED:"; "1"] input_block).
  - reflexivity.
  - reflexivity.
  - repeat constructor.
Defined.

Lemma fold_plain_ignored (pre : list string) (f : Frame) :
  current_block f = None ->
  Forall (fun l => plain l = true) pre ->
  fold_left step pre f = f.
Proof.
  intros Hcb Hpre. induction Hpre as [|l pre Hl _ IH]; [reflexivity|].
  cbn [fold_left]. unfold plain in Hl. apply andb_true_iff in Hl as [Ho Ha].
  apply negb_true_iff in Ho, Ha. rewrite (step_plain f l Ho).
  unfold sets_attribute in Ha. apply orb_false_iff in Ha as [-> ->].
  rewrite Hcb. destruct (truthy (strip l)); exact IH.
Qed.

(** X2.  The lines between the name and the first line that opens a
    block or sets an attribute have no effect: the section parses as it
    does without them; a section made of a name and such lines only
    yields the test case with empty texts, type [exact] and no tags. *)
Theorem free_text_is_ignored
        (section section' file_path name_line : string)
        (pre rest : list string) :
  split newline (strip section) = name_line :: (pre ++ rest)%list ->
  split newline (strip section') = name_line :: rest ->
  Forall (fun l => plain l = true) pre ->
  _parse_test_section section file_path
  = _parse_test_section section' file_path
  /\ (rest = [] ->
      _parse_test_section section file_path
      = Some (mkTestCase (strip name_line) "" "" "" "exact" file_path 0 [])).
Proof.
  intros H H' Hpre.
  rewrite (parse_test_section_unfold section file_path _ _ H).
  rewrite (parse_test_section_unfold section' file_path _ _ H').
  rewrite fold_left_app, (fold_plain_ignored pre initial eq_refl Hpre).
  split; [reflexivity|]. intros ->. reflexivity.
Qed.

Lemma free_text_is_ignored_witness :
  let section :=
    " Addition" ++ newline ++ "adds two numbers" ++ newline ++ newline
    ++ "INPUT: 2 + 2" in
  let section' := " Addition" ++ newline ++ "INPUT: 2 + 2" in
  _parse_test_section section "suite.test"
  = _parse_test_section section' "suite.test"
  /\ (["INPUT: 2 + 2"] = [] ->
      _parse_test_section section "suite.test"
      = Some (mkTestCase (strip "Addition") "" "" "" "exact" "suite.test" 0
                         [])).
Proof.
  intros section section'.
  apply (free_text_is_ignored section section' "suite.test" "Addition"
           ["adds two numbers"; ""] ["INPUT: 2 + 2"]).
  - reflexivity.
  - reflexivity.
  - repeat constructor.
Defined.

Lemma step_type (f : Frame) (line r : string) :
  strip line = "TYPE:" ++ r ->
  step f line = set_test_type f (lower (strip r)).
Proof.
  intros H. unfold step. rewrite H.
  change (startswith "DESCRIPTION:" ("TYPE:" ++ r)) with false.
  change (startswith "INPUT:" ("TYPE:" ++ r)) with false.
  change (startswith "EXPECTED:" ("TYPE:" ++ r)) with false.
  replace (startswith "TYPE:" ("TYPE:" ++ r)) with true
    by (symmetry; apply prefix_append).
  reflexivity.
Qed.

Lemma step_keeps_type (f : Frame) (line : string) :
  startswith "TYPE:" (strip line) = false ->
  v_test_type (step f line) = v_test_type f.
Proof.
  intros H. unfold step. rewrite H.
  repeat match goal with
         | |- context [if ?c then _ else _] => destruct c
         end;
    destruct (current_block f) as [[ | | ]|]; reflexivity.
Qed.

Lemma flush_keeps_type (f : Frame) : v_test_type (flush f) = v_test_type f.
Proof. unfold flush. destruct (current_block f) as [[ | | ]|]; reflexivity. Qed.

Lemma fold_step_keeps_type (lines : list string) (f : Frame) :
  Forall (fun l => startswith "TYPE:" (strip l) = false) lines ->
  v_test_type (fold_left step lines f) = v_test_type f.
Proof.
  intros H. revert f. induction H as [|l lines Hl _ IH]; intros f.
  - reflexivity.
  - cbn [fold_left]. rewrite IH. now apply step_keeps_type.
Qed.

(** X3.  The type of a test is [exact] when no line of the section
    begins with [TYPE:]; otherwise it is the text after the keyword on
    the last such line, trimmed and put in lower case, whatever it is:
    an unknown word is kept, not refused. *)
Theorem type_line_decides_type
        (section file_path name_line : string) (lines : list string) :
  split newline (strip section) = name_line :: lines ->
  exists tc,
    _parse_test_section section file_path = Some tc
    /\ (Forall (fun l => startswith "TYPE:" (strip l) = false) lines ->
        test_type tc = "exact")
    /\ (forall before line after,
           lines = (before ++ line :: after)%list ->
           startswith "TYPE:" (strip line) = true ->
           Forall (fun l => startswith "TYPE:" (strip l) = false) after ->
           test_type tc = lower (strip (drop 5 (strip line)))).
Proof.
  intros Hsplit.
  rewrite (parse_test_section_unfold section file_path _ _ Hsplit).
  eexists. split; [reflexivity|]. cbn [test_type].
  rewrite flush_keeps_type. split.
  - intros H. now rewrite fold_step_keeps_type.
  - intros before line after -> Hty Hafter.
    rewrite fold_left_app. cbn [fold_left].
    rewrite (fold_step_keeps_type after _ Hafter).
    apply prefix_inv in Hty as [r Hr].
    rewrite (step_type _ line r Hr), Hr. reflexivity.
Qed.

Lemma type_line_decides_type_witness :
  let section :=
    " Division" ++ newline ++ "TYPE:  Contains " ++ newline ++ "INPUT: 10 / 3"
  in
  exists tc,
    _parse_test_section section "suite.test" = Some tc
    /\ (Forall (fun l => startswith "TYPE:" (strip l) = false)
               ["TYPE:  Contains "; "INPUT: 10 / 3"] ->
        test_type tc = "exact")
    /\ (forall before line after,
           ["TYPE:  Contains "; "INPUT: 10 / 3"]
           = (before ++ line :: after)%list ->
           startswith "TYPE:" (strip line) = true ->
           Forall (fun l => startswith "TYPE:" (strip l) = false) after ->
           test_type tc = lower (strip (drop 5 (strip line)))).
Proof.
  intros section.
  apply (type_line_decides_type section "suite.test" "Division"
           ["TYPE:  Contains "; "INPUT: 10 / 3"]).
  reflexivity.
Defined.

(** ** Parser: what every parsed test case satisfies *)

Lemma trimmed_strip (s : string) : trimmed (strip s).
Proof. apply strip_idempotent. Qed.

Lemma clean_initial : clean_frame initial.
Proof. repeat split; constructor. Qed.

Lemma clean_flush (f : Frame) : clean_frame f -> clean_frame (flush f).
Proof.
  intros (H1 & H2 & H3 & H4 & H5 & H6). unfold flush.
  destruct (current_block f) as [[ | | ]|]; repeat split; trivial;
    apply trimmed_strip.
Qed.

Lemma clean_step (f : Frame) (line : string) :
  clean_frame f -> clean_frame (step f line).
Proof.
  intros Hf. destruct (opens_block line) eqn:E.
  - destruct (opens_block_cases line E) as [b Hb].
    rewrite (step_opens f line b Hb).
    destruct (clean_flush f Hf) as (H1 & H2 & H3 & H4 & H5 & H6).
    repeat split; assumption.
  - rewrite (step_plain f line E).
    destruct Hf as (H1 & H2 & H3 & H4 & H5 & H6).
    destruct (startswith "TYPE:" (strip line)).
    { repeat split; trivial; cbn.
      - unfold trimmed. rewrite strip_lower. f_equal. apply strip_idempotent.
      - apply lower_idempotent. }
    destruct (startswith "TAGS:" (strip line)).
    { repeat split; trivial; cbn.
      apply Forall_forall. intros t Ht. apply in_map_iff in Ht as (x & <- & _).
      apply trimmed_strip. }
    destruct (truthy (strip line)); [destruct (current_block f)|];
      repeat split; assumption.
Qed.

Lemma clean_fold (lines : list string) (f : Frame) :
  clean_frame f -> clean_frame (fold_left step lines f).
Proof.
  revert f. induction lines as [|l lines IH]; intros f Hf; [exact Hf|].
  cbn [fold_left]. apply IH. now apply clean_step.
Qed.

Lemma clean_section (section file_path : string) (tc : TestCase) :
  _parse_test_section section file_path = Some tc -> clean_case tc.
Proof.
  destruct (split newline (strip section)) as [|line0 rest] eqn:E.
  - unfold _parse_test_section. rewrite E. discriminate.
  - rewrite (parse_test_section_unfold section file_path _ _ E).
    intros H. injection H as <-.
    destruct (clean_flush _ (clean_fold rest initial clean_initial))
      as (H1 & H2 & H3 & H4 & H5 & H6).
    repeat split; trivial. apply trimmed_strip.
Qed.

Lemma parse_sections_forall (P : TestCase -> Prop) (file_path : string)
      (sections : list string) :
  (forall section tc,
      _parse_test_section section file_path = Some tc -> P tc) ->
  Forall P (parse_sections sections file_path).
Proof.
  intros H. induction sections as [|section more IH]; [constructor|].
  cbn [parse_sections].
  destruct (_parse_test_section section file_path) as [tc|] eqn:E;
    [constructor; [now apply (H section) | exact IH] | exact IH].
Qed.

(** X4.  Every test case [parse_file] returns has its name, description,
    input, expected output and tags free of whitespace at both ends,
    and its type trimmed and in lower case. *)
Theorem parsed_cases_are_clean (content file_path : string) :
  Forall clean_case (parse_file content file_path).
Proof.
  unfold parse_file. apply parse_sections_forall.
  intros section tc. apply clean_section.
Qed.

Lemma step_strip (f : Frame) (line : string) :
  step f (strip line) = step f line.
Proof. unfold step. now rewrite strip_idempotent. Qed.

Lemma fold_step_strip (lines : list string) (f : Frame) :
  fold_left step (map strip lines) f = fold_left step lines f.
Proof.
  revert f. induction lines as [|l lines IH]; intros f; [reflexivity|].
  cbn [map fold_left]. now rewrite step_strip, IH.
Qed.

(** X5.  A section is read through its trimmed lines only: two sections
    whose lines are the same once trimmed (indentation, trailing
    blanks) parse to the same test case. *)
Theorem indentation_is_irrelevant (section section' file_path : string) :
  map strip (split newline (strip section))
  = map strip (split newline (strip section')) ->
  _parse_test_section section file_path
  = _parse_test_section section' file_path.
Proof.
  intros H.
  destruct (split newline (strip section)) as [|l0 rest] eqn:E;
    [exfalso; exact (split_not_nil _ _ E)|].
  destruct (split newline (strip section')) as [|l0' rest'] eqn:E';
    [exfalso; exact (split_not_nil _ _ E')|].
  cbn [map] in H. injection H as H0 Hrest.
  rewrite (parse_test_section_unfold section file_path _ _ E).
  rewrite (parse_test_section_unfold section' file_path _ _ E').
  rewrite <- (fold_step_strip rest), <- (fold_step_strip rest').
  now rewrite H0, Hrest.
Qed.

Lemma indentation_is_irrelevant_witness :
  _parse_test_section
    (" Addition" ++ newline ++ "    INPUT: 2 + 2   " ++ newline
     ++ "  EXPECTED:" ++ newline ++ "      4")
    "suite.test"
  = _parse_test_section
      ("Addition" ++ newline ++ "INPUT: 2 + 2" ++ newline ++ "EXPECTED:"
       ++ newline ++ "4")
      "suite.test".
Proof.
  apply (indentation_is_irrelevant
           (" Addition" ++ newline ++ "    INPUT: 2 + 2   " ++ newline
            ++ "  EXPECTED:" ++ newline ++ "      4")
           ("Addition" ++ newline ++ "INPUT: 2 + 2" ++ newline ++ "EXPECTED:"
            ++ newline ++ "4")
           "suite.test").
  reflexivity.
Defined.

(** X6.  [parse_file] returns one test case for each section that
    follows a delimiter, in the order of the file: the names are the
    trimmed first lines of the trimmed sections; every test case carries
    the path given and the line number 0. *)
Theorem one_case_per_section (content path : string) :
  map name (parse_file content path)
  = map (fun section => strip (hd "" (split newline (strip section))))
        (tl (split "### TEST:" content))
  /\ Forall (fun tc => file_path tc = path /\ line_number tc = 0%Z)
            (parse_file content path).
Proof.
  unfold parse_file. split.
  - induction (tl (split "### TEST:" content)) as [|section more IH];
      [reflexivity|].
    cbn [parse_sections map].
    destruct (split newline (strip section)) as [|l0 rest] eqn:E;
      [exfalso; exact (split_not_nil _ _ E)|].
    rewrite (parse_test_section_unfold section path _ _ E).
    cbn [map name hd]. now rewrite IH.
  - apply parse_sections_forall. intros section tc.
    destruct (split newline (strip section)) as [|l0 rest] eqn:E;
      [exfalso; exact (split_not_nil _ _ E)|].
    rewrite (parse_test_section_unfold section path _ _ E).
    intros H. injection H as <-. now split.
Qed.

(** ** Splitting, and replacing as splitting and joining *)

Section Split.

Variables (c0 : ascii) (sep' : string).

Let sep := String c0 sep'.

Lemma split_go_skip (u s : string) :
  split_go sep (String.length u) (u ++ s) = split_go sep 0 s.
Proof. induction u as [|c u IH]; simpl; [reflexivity | exact IH]. Qed.

Lemma split_match (r : string) : split sep (sep ++ r) = "" :: split sep r.
Proof.
  unfold split, sep at 2.
  change (String c0 sep' ++ r) with (String c0 (sep' ++ r)).
  cbn [split_go]. change (String c0 (sep' ++ r)) with (sep ++ r).
  rewrite prefix_append.
  change (String.length sep - 1) with (String.length sep' - 0).
  rewrite Nat.sub_0_r, split_go_skip. reflexivity.
Qed.

Lemma split_no_match (c : ascii) (s : string) :
  String.prefix sep (String c s) = false ->
  split sep (String c s)
  = match split sep s with
    | p :: ps => String c p :: ps
    | [] => []
    end.
Proof.
  intros H. unfold split. cbn [split_go]. rewrite H.
  destruct (split_go sep 0 s). reflexivity.
Qed.

(** A text without separator is one piece. *)
Lemma split_absent (s : string) : ~ substring_of sep s -> split sep s = [s].
Proof.
  induction s as [|c s IH]; intros H; [reflexivity|].
  rewrite split_no_match.
  - rewrite IH; [reflexivity|]. intros (pre & post & ->). apply H.
    exists (String c pre), post. reflexivity.
  - destruct (String.prefix sep (String c s)) eqn:E; [|reflexivity].
    exfalso. apply H. apply prefix_inv in E as [r Hr]. exists "", r. exact Hr.
Qed.

(** The text up to the first separator is the first piece. *)
Lemma split_first (pre rest : string) :
  (forall a b, pre = a ++ b -> b <> "" ->
               String.prefix sep (b ++ sep ++ rest) = false) ->
  split sep (pre ++ sep ++ rest) = pre :: split sep rest.
Proof.
  induction pre as [|c pre IH]; intros H.
  - change ("" ++ sep ++ rest) with (sep ++ rest). apply split_match.
  - change (String c pre ++ sep ++ rest) with (String c (pre ++ sep ++ rest)).
    rewrite split_no_match.
    + rewrite IH; [reflexivity|]. intros a b -> Hb.
      apply (H (String c a) b); [reflexivity | exact Hb].
    + apply (H "" (String c pre)); [reflexivity | discriminate].
Qed.

(** [replace] is [split] followed by [join]. *)
Lemma replace_go_split_go (new : string) (k : nat) (s : string) :
  replace_go sep new k s
  = join new (fst (split_go sep k s) :: snd (split_go sep k s)).
Proof.
  revert k. induction s as [|c s IH]; intros k; [reflexivity|].
  cbn [replace_go split_go]. destruct k as [|k]; [|apply IH].
  destruct (String.prefix sep (String c s)).
  - rewrite IH. destruct (split_go sep (String.length sep - 1) s).
    reflexivity.
  - rewrite IH. destruct (split_go sep 0 s) as [p ps]. cbn [fst snd].
    unfold join. cbn [String.concat]. destruct ps; reflexivity.
Qed.

Lemma replace_split_join (new s : string) :
  replace sep new s = join new (split sep s).
Proof.
  unfold replace, split. rewrite replace_go_split_go.
  destruct (split_go sep 0 s). reflexivity.
Qed.

End Split.

Lemma prefix_shorten (p x y : string) :
  String.prefix p (x ++ y) = true ->
  String.length p <= String.length x ->
  String.prefix p x = true.
Proof.
  revert x. induction p as [|c p IH]; intros x H Hlen; [apply prefix_empty|].
  destruct x as [|d x]; [simpl in Hlen; lia|].
  change (String d x ++ y) with (String d (x ++ y)) in H.
  rewrite prefix_cons in *. apply andb_true_iff in H as [Hc Hp].
  rewrite Hc. simpl in Hlen. apply IH; [exact Hp | lia].
Qed.

(** ** Parser: the delimiter *)

(** X7.  A file text without the delimiter [### TEST:], the empty text
    among them, yields no test case. *)
Theorem no_delimiter_no_case (content file_path : string) :
  ~ substring_of "### TEST:" content ->
  parse_file content file_path = [].
Proof.
  intros H. unfold parse_file.
  now rewrite (split_absent "#"%char "## TEST:" content H).
Qed.

Lemma no_delimiter_no_case_witness :
  parse_file ("# notes" ++ newline ++ "INPUT: 2 + 2" ++ newline) "notes.test"
  = [].
Proof.
  apply (no_delimiter_no_case
           ("# notes" ++ newline ++ "INPUT: 2 + 2" ++ newline) "notes.test").
  intros H. apply contains_spec in H. discriminate H.
Defined.

(** X8.  What comes before the first delimiter is discarded: when no
    delimiter begins within [pre], the file [pre], delimiter, [rest]
    parses as the delimiter followed by [rest] does; the test cases are
    those of the pieces of [rest]. *)
Theorem preamble_is_discarded (pre rest file_path : string) :
  ~ substring_of "### TEST:" (pre ++ "### TEST") ->
  parse_file (pre ++ "### TEST:" ++ rest) file_path
  = parse_file ("### TEST:" ++ rest) file_path
  /\ parse_file (pre ++ "### TEST:" ++ rest) file_path
     = parse_sections (split "### TEST:" rest) file_path.
Proof.
  intros H. unfold parse_file.
  rewrite (split_match "#"%char "## TEST:" rest).
  rewrite (split_first "#"%char "## TEST:" pre rest); [now split|].
  intros a b -> Hb.
  destruct (String.prefix "### TEST:" (b ++ "### TEST:" ++ rest)) eqn:E;
    [|reflexivity].
  exfalso. apply H.
  change (b ++ "### TEST:" ++ rest)
    with (b ++ "### TEST" ++ (":" ++ rest)) in E.
  rewrite <- append_assoc in E. apply prefix_shorten in E.
  - apply prefix_inv in E as [r Hr]. exists a, r.
    now rewrite append_assoc, Hr.
  - rewrite length_append. destruct b; [now contradiction Hb | simpl; lia].
Qed.

Lemma preamble_is_discarded_witness :
  let pre := "# Math suite ###" ++ newline ++ "INPUT: ignored" ++ newline in
  let rest := " Addition" ++ newline ++ "INPUT: 2 + 2" in
  parse_file (pre ++ "### TEST:" ++ rest) "suite.test"
  = parse_file ("### TEST:" ++ rest) "suite.test"
  /\ parse_file (pre ++ "### TEST:" ++ rest) "suite.test"
     = parse_sections (split "### TEST:" rest) "suite.test".
Proof.
  intros pre rest.
  apply (preamble_is_discarded pre rest "suite.test").
  intros H. apply contains_spec in H. discriminate H.
Defined.

(** ** Comparator: how the modes relate *)

Lemma append_nil_r (s : string) : s ++ "" = s.
Proof. induction s as [|c s IH]; simpl; congruence. Qed.

Lemma substring_of_refl (s : string) : substring_of s s.
Proof. exists "", "". cbn. now rewrite append_nil_r. Qed.

Lemma substring_of_trans (a b c : string) :
  substring_of a b -> substring_of b c -> substring_of a c.
Proof.
  intros (p & q & ->) (p' & q' & ->). exists (p' ++ p), (q ++ q').
  now rewrite !append_assoc.
Qed.

Lemma substring_of_antisym (a b : string) :
  substring_of a b -> substring_of b a -> a = b.
Proof.
  intros (p & q & Hb) (p' & q' & Ha).
  assert (Hlen : String.length p = 0 /\ String.length q = 0).
  { apply (f_equal String.length) in Hb, Ha.
    rewrite !length_append in Hb, Ha. lia. }
  destruct Hlen as [Hp Hq]. destruct p; [|discriminate Hp].
  destruct q; [|discriminate Hq]. cbn in Hb. now rewrite append_nil_r in Hb.
Qed.

(** X9.  The comparator reads its two texts through their trimmed
    forms: in every mode, whitespace around the expected or the actual
    text does not change the verdict (nor the exception). *)
Theorem comparator_ignores_outer_whitespace
        (w : World) (expected actual mode : string) :
  _compare_output w (strip expected) (strip actual) mode
  = _compare_output w expected actual mode.
Proof. unfold _compare_output. now rewrite !strip_idempotent. Qed.

(** X10.  Mode [exact] is reflexive and symmetric, and a pair that
    passes in mode [exact] passes in mode [contains]. *)
Theorem exact_mode_relations (w : World) (expected actual : string) :
  _compare_output w expected expected "exact" = Ok true
  /\ _compare_output w expected actual "exact"
     = _compare_output w actual expected "exact"
  /\ (_compare_output w expected actual "exact" = Ok true ->
      _compare_output w expected actual "contains" = Ok true).
Proof.
  rewrite !compare_exact, compare_contains. repeat apply conj.
  - now rewrite String.eqb_refl.
  - now rewrite String.eqb_sym.
  - intros H. injection H as H. apply String.eqb_eq in H. rewrite H.
    f_equal. apply contains_spec, substring_of_refl.
Qed.

(** X11.  Mode [contains] orders the trimmed texts: it is reflexive and
    transitive, and two texts that contain each other pass in mode
    [exact]. *)
Theorem contains_mode_is_an_order (w : World) (a b c : string) :
  _compare_output w a a "contains" = Ok true
  /\ (_compare_output w a b "contains" = Ok true ->
      _compare_output w b c "contains" = Ok true ->
      _compare_output w a c "contains" = Ok true)
  /\ (_compare_output w a b "contains" = Ok true ->
      _compare_output w b a "contains" = Ok true ->
      _compare_output w a b "exact" = Ok true).
Proof.
  rewrite !compare_contains, compare_exact. repeat apply conj.
  - f_equal. apply contains_spec, substring_of_refl.
  - intros H1 H2. injection H1 as H1. injection H2 as H2. f_equal.
    apply contains_spec in H1, H2. apply contains_spec.
    exact (substring_of_trans _ _ _ H1 H2).
  - intros H1 H2. injection H1 as H1. injection H2 as H2. f_equal.
    apply contains_spec in H1, H2. apply String.eqb_eq.
    exact (substring_of_antisym _ _ H1 H2).
Qed.

(** X12.  The comparator raises in two modes only: in mode [regex],
    what [re.search] raises; in mode [json], what [json.loads] raises on
    either text when that is not a decoding error.  In every other mode
    it returns a verdict. *)
Theorem comparator_raises_in_regex_or_json
        (w : World) (expected actual mode : string) (e : PyException) :
  _compare_output w expected actual mode = Raise e ->
  (mode = "regex"
   /\ re_search w (strip expected) (strip actual) = Raise e)
  \/ (mode = "json"
      /\ is_JSONDecodeError e = false
      /\ (json_loads w (strip expected) = Raise e
          \/ (exists v, json_loads w (strip expected) = Ok v)
             /\ json_loads w (strip actual) = Raise e)).
Proof.
  unfold _compare_output.
  destruct (String.eqb_spec mode "exact"); [discriminate|].
  destruct (String.eqb_spec mode "contains"); [discriminate|].
  destruct (String.eqb_spec mode "regex") as [->|]; [intros H; now left|].
  destruct (String.eqb_spec mode "json") as [->|]; [|discriminate].
  intros H. right. split; [reflexivity|].
  destruct (json_loads w (strip expected)) as [v|e1].
  - destruct (json_loads w (strip actual)) as [v'|e2]; cbn in H;
      [discriminate|].
    destruct (is_JSONDecodeError e2) eqn:E2; [discriminate|].
    injection H as <-. split; [exact E2|]. right. split; [now exists v|].
    reflexivity.
  - cbn in H. destruct (is_JSONDecodeError e1) eqn:E1; [discriminate|].
    injection H as <-. split; [exact E1|]. now left.
Qed.

Lemma comparator_raises_in_regex_or_json_witness :
  let e := re_error_at "unterminated character set" 0 in
  ("regex" = "regex"
   /\ re_search Demo.world (strip "[") (strip "abc") = Raise e)
  \/ ("regex" = "json"
      /\ is_JSONDecodeError e = false
      /\ (json_loads Demo.world (strip "[") = Raise e
          \/ (exists v, json_loads Demo.world (strip "[") = Ok v)
             /\ json_loads Demo.world (strip "abc") = Raise e)).
Proof.
  intros e.
  apply (comparator_raises_in_regex_or_json Demo.world "[" "abc" "regex" e).
  reflexivity.
Defined.

(** ** Runner: results and command lines *)

(** X13.  A result with [passed] true has no [error_message]: the
    command ran, the recorded output is its trimmed standard output,
    and the comparator answered true on it. *)
Theorem pass_is_earned
        (w : World) (self : TestRunner.t) (tc : TestCase)
        (result : TestResult) :
  run_test w self tc = Ok result ->
  passed result = true ->
  error_message result = ""
  /\ exists out,
       subprocess_run w (command_line self (input_data tc)) = Ok out
       /\ actual_output result = strip out
       /\ _compare_output w (expected_output tc) (actual_output result)
                          (test_type tc)
          = Ok true.
Proof.
  intros Hres Hpass.
  destruct (run_test_cases w self tc)
    as [(out & verdict & Hrun & Hcmp & H) | (e & H)];
    rewrite H in Hres; injection Hres as <-; cbn in *.
  - subst verdict. split; [reflexivity|]. exists out. now repeat split.
  - discriminate Hpass.
Qed.

Lemma pass_is_earned_witness :
  let self := TestRunner.init None in
  let tc := mkTestCase "echo" "" "4" "4" "contains" "suite.test" 0 [] in
  let result := mkTestResult tc true (quote_s ++ "4" ++ quote_s) "" in
  error_message result = ""
  /\ exists out,
       subprocess_run Demo.world (command_line self (input_data tc)) = Ok out
       /\ actual_output result = strip out
       /\ _compare_output Demo.world (expected_output tc)
                          (actual_output result) (test_type tc)
          = Ok true.
Proof.
  intros self tc result.
  apply (pass_is_earned Demo.world self tc result); reflexivity.
Defined.

(** X14.  Every result [run_test] returns refers to the test case it
    was given; its [actual_output] is trimmed; and when it carries an
    [error_message] its [actual_output] is empty, also when the command
    ran and only the comparison raised. *)
Theorem result_shape
        (w : World) (self : TestRunner.t) (tc : TestCase)
        (result : TestResult) :
  run_test w self tc = Ok result ->
  test_case result = tc
  /\ trimmed (actual_output result)
  /\ (error_message result <> "" -> actual_output result = "").
Proof.
  intros Hres.
  destruct (run_test_cases w self tc)
    as [(out & verdict & Hrun & Hcmp & H) | (e & H)];
    rewrite H in Hres; injection Hres as <-; cbn.
  - repeat split; [apply trimmed_strip|]. intros H'. now contradiction H'.
  - repeat split.
Qed.

Lemma result_shape_witness :
  let self := TestRunner.init None in
  let tc := mkTestCase "bracket" "" "abc" "[" "regex" "suite.test" 0 [] in
  let result :=
    mkTestResult tc false "" "unterminated character set at position 0" in
  test_case result = tc
  /\ trimmed (actual_output result)
  /\ (error_message result <> "" -> actual_output result = "").
Proof.
  intros self tc result.
  apply (result_shape Demo.world self tc result). reflexivity.
Defined.

(** X15.  Whatever the template, the command line is the template cut
    at every [{input}] and joined again with the quoted input: every
    placeholder is replaced, not only the first. *)
Theorem every_placeholder_is_replaced (self : TestRunner.t) (input : string) :
  command_line self input
  = join (quote_s ++ double_quotes input ++ quote_s)
         (split "{input}" (command_template self)).
Proof.
  unfold command_line. rewrite replace_quote_doubles.
  apply (replace_split_join "{"%char "input}").
Qed.

(** X16.  With a template that does not hold [{input}], the command
    line is the template itself: the input of the test is not passed to
    the command. *)
Theorem template_without_placeholder (self : TestRunner.t) (input : string) :
  ~ substring_of "{input}" (command_template self) ->
  command_line self input = command_template self.
Proof.
  intros H. unfold command_line, replace.
  now apply (replace_go_absent "{"%char "input}").
Qed.

Lemma template_without_placeholder_witness :
  command_line (TestRunner.init (Some "python run_test.py")) "2 + 2"
  = command_template (TestRunner.init (Some "python run_test.py")).
Proof.
  apply (template_without_placeholder
           (TestRunner.init (Some "python run_test.py")) "2 + 2").
  intros H. apply contains_spec in H. discriminate H.
Defined.

Lemma double_quotes_injective (s t : string) :
  double_quotes s = double_quotes t -> s = t.
Proof.
  revert t. induction s as [|c s IH]; intros [|d t] H.
  - reflexivity.
  - cbn in H. destruct (Ascii.eqb d dquote); discriminate H.
  - cbn in H. destruct (Ascii.eqb c dquote); discriminate H.
  - cbn in H.
    destruct (Ascii.eqb_spec c dquote) as [->|Hc];
      destruct (Ascii.eqb_spec d dquote) as [->|Hd].
    + injection H as H. f_equal. now apply IH.
    + injection H as H1 H2. congruence.
    + injection H as H1 H2. congruence.
    + injection H as -> H. f_equal. now apply IH.
Qed.

Lemma command_line_single
      (self : TestRunner.t) (input pre post : string) :
  single_placeholder (command_template self) pre post ->
  command_line self input
  = pre ++ (quote_s ++ double_quotes input ++ quote_s) ++ post.
Proof.
  intros [Htpl Huniq]. unfold command_line.
  rewrite replace_quote_doubles, Htpl.
  apply (replace_single "{"%char "input}"). rewrite <- Htpl. exact Huniq.
Qed.

(** X17.  With a template that holds the placeholder once, the quoting
    loses nothing: two inputs that give the same command line are the
    same input. *)
Theorem command_line_determines_input
        (self : TestRunner.t) (pre post input input' : string) :
  single_placeholder (command_template self) pre post ->
  command_line self input = command_line self input' ->
  input = input'.
Proof.
  intros Hs H.
  rewrite (command_line_single self input pre post Hs) in H.
  rewrite (command_line_single self input' pre post Hs) in H.
  apply append_cancel_l in H. rewrite !append_assoc in H.
  apply append_cancel_l in H. apply append_cancel_r in H.
  now apply double_quotes_injective.
Qed.

Lemma command_line_determines_input_witness : "2 + 2" = "2 + 2".
Proof.
  apply (command_line_determines_input (TestRunner.init None) "echo " ""
                                        "2 + 2" "2 + 2").
  - apply (single_placeholder_by_count "echo " ""). reflexivity.
  - reflexivity.
Defined.

(** X18.  A runner made without template, or with the empty template,
    runs [echo] on the quoted input. *)
Theorem default_template_is_echo (input : string) :
  command_line (TestRunner.init None) input
  = "echo " ++ quote_s ++ double_quotes input ++ quote_s
  /\ command_line (TestRunner.init (Some "")) input
     = "echo " ++ quote_s ++ double_quotes input ++ quote_s.
Proof.
  assert (H : single_placeholder "echo {input}" "echo " "")
    by (apply (single_placeholder_by_count "echo " ""); reflexivity).
  split.
  - rewrite (command_line_single (TestRunner.init None) input "echo " "" H).
    now rewrite !append_assoc, append_nil_r.
  - rewrite (command_line_single (TestRunner.init (Some "")) input
                                 "echo " "" H).
    now rewrite !append_assoc, append_nil_r.
Qed.

(** ** Reporter *)

Lemma count_passed_bounds (results : list TestResult) :
  (0 <= TestReporter.count_passed results <= Z.of_nat (List.length results))%Z.
Proof.
  induction results as [|r results IH]; [cbn; lia|].
  cbn [TestReporter.count_passed List.length]. destruct (passed r); lia.
Qed.

Lemma count_passed_all (results : list TestResult) :
  TestReporter.count_passed results = Z.of_nat (List.length results)
  <-> Forall (fun r => passed r = true) results.
Proof.
  induction results as [|r results IH]; [cbn; split; [constructor | reflexivity]|].
  cbn [TestReporter.count_passed List.length].
  pose proof (count_passed_bounds results) as Hb. split.
  - intros H. destruct (passed r) eqn:E; [|lia].
    constructor; [exact E|]. apply IH. lia.
  - intros H. inversion H as [|? ? Hr Hrest]; subst. rewrite Hr.
    apply IH in Hrest. lia.
Qed.

Lemma count_passed_app (a b : list TestResult) :
  TestReporter.count_passed (a ++ b)
  = (TestReporter.count_passed a + TestReporter.count_passed b)%Z.
Proof.
  induction a as [|r a IH]; [reflexivity|].
  cbn [app TestReporter.count_passed]. rewrite IH. lia.
Qed.

(** X19.  [print_results] returns true exactly when every result
    passed (so also for no result at all); the counts of its summary add
    up, passed and failed lying between 0 and the total; and the report
    of two runs put together succeeds exactly when both do. *)
Theorem report_succeeds_iff_all_passed (results more : list TestResult) :
  (TestReporter.print_results results = true
   <-> Forall (fun r => passed r = true) results)
  /\ (let '(total, n_passed, n_failed) := TestReporter.summary results in
      total = Z.of_nat (List.length results)
      /\ (n_passed + n_failed = total)%Z
      /\ (0 <= n_passed <= total)%Z /\ (0 <= n_failed <= total)%Z)
  /\ TestReporter.print_results (results ++ more)
     = TestReporter.print_results results && TestReporter.print_results more.
Proof.
  pose proof (count_passed_bounds results) as Hb.
  pose proof (count_passed_bounds more) as Hb'.
  refine (conj _ (conj _ _)).
  - unfold TestReporter.print_results. rewrite Z.eqb_eq, <- count_passed_all.
    lia.
  - unfold TestReporter.summary. lia.
  - unfold TestReporter.print_results.
    rewrite count_passed_app, length_app, Nat2Z.inj_add.
    destruct (Z.eqb_spec (Z.of_nat (List.length results)
                          - TestReporter.count_passed results) 0);
      destruct (Z.eqb_spec (Z.of_nat (List.length more)
                            - TestReporter.count_passed more) 0);
      cbn; apply Z.eqb_eq || apply Z.eqb_neq; lia.
Qed.

(** ** Entry point *)

Lemma parse_all_ok (fs : Main.FileSystem) (files : list string)
      (acc : list TestCase) :
  Main.parse_all fs files acc = Ok (acc ++ cases_of fs files)%list.
Proof.
  revert acc. induction files as [|file files IH]; intros acc.
  - cbn. now rewrite app_nil_r.
  - cbn [Main.parse_all cases_of flat_map]. unfold Main.parse_path.
    destruct (Main.read_text fs file) as [content|e]; cbn.
    + rewrite IH. now rewrite app_assoc.
    + rewrite is_Exception_all. cbn. rewrite IH. reflexivity.
Qed.

(** X20.  The loop of [main] over the test files never raises: a file
    that cannot be opened or read is passed over, and the test cases
    are those of the files that can be read, in the order of the
    files. *)
Theorem unreadable_files_are_skipped
        (fs : Main.FileSystem) (files : list string) :
  Main.parse_all fs files []
  = Ok (flat_map (fun file => match Main.read_text fs file with
                              | Ok content => parse_file content file
                              | Raise _ => []
                              end) files).
Proof. exact (parse_all_ok fs files []). Qed.

Lemma run_all_ok (w : World) (runner : TestRunner.t)
      (tests : list TestCase) :
  exists results,
    Main.run_all w runner tests = Ok results
    /\ Forall2 (fun t r => run_test w runner t = Ok r) tests results.
Proof.
  induction tests as [|t tests (results & Hrun & Hall)].
  - exists []. split; [reflexivity | constructor].
  - assert (exists r, run_test w runner t = Ok r) as [r Hr].
    { destruct (run_test_cases w runner t)
        as [(out & verdict & _ & _ & H) | (e & H)]; eexists; exact H. }
    exists (r :: results). split.
    + cbn [Main.run_all]. rewrite Hr. cbn. rewrite Hrun. reflexivity.
    + now constructor.
Qed.

Lemma run_test_case (w : World) (runner : TestRunner.t) (t : TestCase)
      (r : TestResult) :
  run_test w runner t = Ok r -> test_case r = t.
Proof.
  intros Hres.
  destruct (run_test_cases w runner t)
    as [(out & verdict & _ & _ & H) | (e & H)];
    rewrite H in Hres; injection Hres as <-; reflexivity.
Qed.

(** X21.  The loop of [main] that runs the tests never raises and gives
    one result for each test, in the order of the tests: the test cases
    of the results are the tests run. *)
Theorem results_follow_tests
        (w : World) (runner : TestRunner.t) (tests : list TestCase) :
  exists results,
    Main.run_all w runner tests = Ok results
    /\ map test_case results = tests
    /\ Forall2 (fun t r => run_test w runner t = Ok r) tests results.
Proof.
  destruct (run_all_ok w runner tests) as (results & Hrun & Hall).
  exists results. repeat split; trivial.
  clear Hrun. induction Hall as [|t r tests results Hr _ IH]; [reflexivity|].
  cbn [map]. now rewrite (run_test_case w runner t r Hr), IH.
Qed.

Lemma tag_in_spec (tag : string) (t : TestCase) :
  Main.tag_in tag t = true <-> In tag (tags t).
Proof.
  unfold Main.tag_in. rewrite existsb_exists. split.
  - intros (x & Hx & E). apply String.eqb_eq in E. now subst.
  - intros H. exists tag. split; [exact H | apply String.eqb_refl].
Qed.

(** X22.  The tag filter of [main]: without [--tags], or with an empty
    one, every test is kept; otherwise a test is kept exactly when one
    of its tags is one of the requested tags, these being the pieces of
    the option between commas, trimmed; the tests kept stay in order,
    the filter of two lists put together being the two filters put
    together. *)
Theorem tag_filter_keeps_tagged_tests
        (tags_text : string) (tests more : list TestCase) (t : TestCase) :
  Main.filter_by_tags None tests = tests
  /\ Main.filter_by_tags (Some "") tests = tests
  /\ (tags_text <> "" ->
      (In t (Main.filter_by_tags (Some tags_text) tests)
       <-> In t tests
           /\ exists tag,
                In tag (map strip (split "," tags_text)) /\ In tag (tags t)))
  /\ Main.filter_by_tags (Some tags_text) (tests ++ more)
     = (Main.filter_by_tags (Some tags_text) tests
        ++ Main.filter_by_tags (Some tags_text) more)%list.
Proof.
  refine (conj eq_refl (conj eq_refl (conj _ _))).
  - intros Hne. unfold Main.filter_by_tags.
    destruct tags_text as [|c s]; [now contradiction Hne|]. cbn [truthy].
    rewrite filter_In. unfold Main.any_tag_in. rewrite existsb_exists.
    split.
    + intros (Hin & tag & Htag & Ht). split; [exact Hin|].
      exists tag. split; [exact Htag | now apply tag_in_spec].
    + intros (Hin & tag & Htag & Ht). split; [exact Hin|].
      exists tag. split; [exact Htag | now apply tag_in_spec].
  - unfold Main.filter_by_tags. destruct (truthy tags_text);
      [apply filter_app | reflexivity].
Qed.

(** ** Dictionary helpers *)

Lemma dict_get_set_same {A : Type} (k : string) (v : A)
      (d : list (string * A)) :
  dict_get k (dict_set k v d) = Some v.
Proof.
  induction d as [|[k' v'] d IH]; cbn.
  - now rewrite String.eqb_refl.
  - destruct (String.eqb k k') eqn:E; cbn.
    + now rewrite String.eqb_refl.
    + now rewrite E.
Qed.

Lemma dict_get_set_other {A : Type} (k k' : string) (v : A)
      (d : list (string * A)) :
  k' <> k -> dict_get k' (dict_set k v d) = dict_get k' d.
Proof.
  intros Hne. apply String.eqb_neq in Hne.
  induction d as [|[k0 v0] d IH]; cbn.
  - now rewrite Hne.
  - destruct (String.eqb_spec k k0) as [->|E]; cbn.
    + now rewrite Hne.
    + destruct (String.eqb k' k0); [reflexivity | exact IH].
Qed.

(** X24.  [_save_block] stores the lines joined with newline and
    trimmed under the key of the block type ([description],
    [input_data] or [expected_output]) and leaves every other key as it
    is; for any other block type the dictionary is unchanged;
    [_save_block_to_vars] does the same. *)
Theorem save_block_sets_one_key
        (block_type : string) (content : list string)
        (var_dict : list (string * string)) :
  ParserHelpers._save_block_to_vars block_type content var_dict
  = ParserHelpers._save_block block_type content var_dict
  /\ (key_of block_type = None ->
      ParserHelpers._save_block block_type content var_dict = var_dict)
  /\ (forall key,
         key_of block_type = Some key ->
         dict_get key (ParserHelpers._save_block block_type content var_dict)
         = Some (strip (join newline content))
         /\ forall other,
              other <> key ->
              dict_get other
                       (ParserHelpers._save_block block_type content var_dict)
              = dict_get other var_dict).
Proof.
  refine (conj eq_refl (conj _ _)).
  - unfold key_of, ParserHelpers._save_block.
    destruct (String.eqb block_type "description"); [discriminate|].
    destruct (String.eqb block_type "input"); [discriminate|].
    destruct (String.eqb block_type "expected"); [discriminate|].
    reflexivity.
  - intros key Hkey.
    assert (H : ParserHelpers._save_block block_type content var_dict
                = dict_set key (strip (join newline content)) var_dict).
    { unfold key_of in Hkey. unfold ParserHelpers._save_block.
      destruct (String.eqb block_type "description");
        [now injection Hkey as <-|].
      destruct (String.eqb block_type "input"); [now injection Hkey as <-|].
      destruct (String.eqb block_type "expected");
        [now injection Hkey as <- | discriminate Hkey]. }
    rewrite H. split; [apply dict_get_set_same|].
    intros other Ho. now apply dict_get_set_other.
Qed.
